(** * Tool-calling orchestration loops of python-openai-demos

    A shallow embedding of the function-calling demo scripts

      - [function_calling_extended_errors.py], [function_calling_fewshots.py]
        (single round trip, guarded dispatch),
      - [function_calling_while_loop.py] (continuous loop, unguarded dispatch),
      - [function_calling_parallel.py] (thread-pool dispatch),
      - and their counterparts under [spanish/],

    followed by the properties of the orchestration loop.

    Python values are an inductive type [pyval]; a Python [str] is a Rocq
    [string] holding its UTF-8 encoding; an exception is a value of [exn]
    and a computation that may raise returns [res].  The model endpoint is
    a function from the conversation sent to the reply received (or the
    exception the client raises); the completion order of the thread pool
    is an explicit schedule. *)

From Stdlib Require Import String Ascii List ZArith NArith Lia Bool.
From Stdlib Require Import Permutation DecimalString.
Import ListNotations.
Open Scope string_scope.
Set Warnings "-register-all".

(* ================================================================== *)
(** * Exceptions and results *)

Inductive exn_class :=
| JSONDecodeError | TypeError | ValueError | KeyError | RecursionError | APIError.

Record exn := Exn { exn_cls : exn_class; exn_msg : string }.

Inductive res (A : Type) : Type :=
| Ok (a : A)
| Raise (e : exn).
Arguments Ok {A} a.
Arguments Raise {A} e.

Definition bind {A B} (m : res A) (k : A -> res B) : res B :=
  match m with
  | Ok a => k a
  | Raise e => Raise e
  end.

Notation "x <- m ;; k" := (bind m (fun x => k))
  (at level 61, m at next level, right associativity).

Definition returns {A} (m : res A) : Prop := exists a, m = Ok a.

Definition exn_class_eqb (a b : exn_class) : bool :=
  match a, b with
  | JSONDecodeError, JSONDecodeError | TypeError, TypeError
  | ValueError, ValueError | KeyError, KeyError
  | RecursionError, RecursionError | APIError, APIError => true
  | _, _ => false
  end.

(* ================================================================== *)
(** * Python values *)

(** [PFloat] carries the [repr] of the float (float arithmetic is not
    modelled).  [PObject] stands for any value the [json] encoder rejects
    (a set, bytes, a user-defined object ...): its type name, its [str()]
    and its [repr()]. *)
Inductive pyval :=
| PNone
| PBool (b : bool)
| PInt (n : Z)
| PFloat (repr : string)
| PStr (s : string)
| PList (xs : list pyval)
| PDict (kvs : list (string * pyval))
| PObject (type_name str_text repr_text : string).

Definition kwargs := list (string * pyval).

Fixpoint get {V} (d : list (string * V)) (k : string) : option V :=
  match d with
  | [] => None
  | (k', v) :: r => if String.eqb k' k then Some v else get r k
  end.

(** [d[k] = v] on an insertion-ordered dict. *)
Fixpoint setitem {V} (d : list (string * V)) (k : string) (v : V) :=
  match d with
  | [] => [(k, v)]
  | (k', v') :: r =>
      if String.eqb k' k then (k', v) :: r else (k', v') :: setitem r k v
  end.

Definition mem {V} (k : string) (d : list (string * V)) : bool :=
  match get d k with Some _ => true | None => false end.

(** A float is zero when every digit of its mantissa is. *)
Fixpoint float_is_zero (r : string) : bool :=
  match r with
  | EmptyString => true
  | String c r' =>
      if (Ascii.eqb c "e" || Ascii.eqb c "E")%bool then true
      else if (Ascii.eqb c "-" || Ascii.eqb c "+" || Ascii.eqb c "."
               || Ascii.eqb c "0")%bool then float_is_zero r'
      else false
  end.

(** Truth value testing ([bool(v)]). *)
Definition truthy (v : pyval) : bool :=
  match v with
  | PNone => false
  | PBool b => b
  | PInt n => negb (n =? 0)%Z
  | PFloat r => negb (float_is_zero r)
  | PStr s => negb (String.eqb s "")
  | PList xs => match xs with [] => false | _ => true end
  | PDict kvs => match kvs with [] => false | _ => true end
  | PObject _ _ _ => true
  end.

(** [a or b]. *)
Definition py_or (a b : pyval) : pyval := if truthy a then a else b.

(** [s or d] on strings. *)
Definition str_or (s d : string) : string :=
  if String.eqb s "" then d else s.

Definition type_name_of (v : pyval) : string :=
  match v with
  | PNone => "NoneType"
  | PBool _ => "bool"
  | PInt _ => "int"
  | PFloat _ => "float"
  | PStr _ => "str"
  | PList _ => "list"
  | PDict _ => "dict"
  | PObject t _ _ => t
  end.

(* ================================================================== *)
(** * Strings: code points, UTF-8, [str.strip] *)

Definition dquote : ascii := "034".
Definition squote : ascii := "039".
Definition backslash : ascii := "092".

Definition chr1 (n : N) : string := String (ascii_of_N n) EmptyString.

Definition utf8_encode1 (cp : N) : string :=
  (if cp <? 128 then chr1 cp
   else if cp <? 2048 then
     chr1 (192 + cp / 64) ++ chr1 (128 + cp mod 64)
   else if cp <? 65536 then
     chr1 (224 + cp / 4096) ++ chr1 (128 + (cp / 64) mod 64)
       ++ chr1 (128 + cp mod 64)
   else
     chr1 (240 + cp / 262144) ++ chr1 (128 + (cp / 4096) mod 64)
       ++ chr1 (128 + (cp / 64) mod 64) ++ chr1 (128 + cp mod 64))%N.

Definition utf8_encode (cps : list N) : string :=
  fold_right (fun cp acc => utf8_encode1 cp ++ acc) "" cps.

Definition cont (c : ascii) : N := (N_of_ascii c mod 64)%N.

Fixpoint utf8_decode (s : string) : list N :=
  match s with
  | EmptyString => []
  | String c0 r =>
      let b0 := N_of_ascii c0 in
      if (b0 <? 192)%N then b0 :: utf8_decode r
      else
        match r with
        | EmptyString => [b0]
        | String c1 r1 =>
            if (b0 <? 224)%N then
              ((b0 mod 32) * 64 + cont c1)%N :: utf8_decode r1
            else
              match r1 with
              | EmptyString => [b0; N_of_ascii c1]
              | String c2 r2 =>
                  if (b0 <? 240)%N then
                    ((b0 mod 16) * 4096 + cont c1 * 64 + cont c2)%N
                      :: utf8_decode r2
                  else
                    match r2 with
                    | EmptyString => [b0; N_of_ascii c1; N_of_ascii c2]
                    | String c3 r3 =>
                        ((b0 mod 8) * 262144 + cont c1 * 4096
                         + cont c2 * 64 + cont c3)%N :: utf8_decode r3
                    end
              end
        end
  end.

(** [str.isspace] on one code point. *)
Definition isspace (cp : N) : bool :=
  ((9 <=? cp) && (cp <=? 13) || (28 <=? cp) && (cp <=? 32)
   || (cp =? 133) || (cp =? 160) || (cp =? 5760)
   || (8192 <=? cp) && (cp <=? 8202) || (cp =? 8232) || (cp =? 8233)
   || (cp =? 8239) || (cp =? 8287) || (cp =? 12288))%N%bool.

Fixpoint lstrip (cps : list N) : list N :=
  match cps with
  | [] => []
  | cp :: r => if isspace cp then lstrip r else cps
  end.

(** [s.strip()]. *)
Definition strip (s : string) : string :=
  utf8_encode (rev (lstrip (rev (lstrip (utf8_decode s))))).

Definition string_of_Z (n : Z) : string :=
  NilZero.string_of_int (Z.to_int n).

Definition hex_digit (n : N) : string :=
  (if n <? 10 then chr1 (48 + n) else chr1 (87 + n))%N.

Definition hex2 (n : N) : string :=
  (hex_digit ((n / 16) mod 16) ++ hex_digit (n mod 16))%N.

Definition hex4 (n : N) : string :=
  (hex2 (n / 256) ++ hex2 (n mod 256))%N.

Fixpoint concat_map {A} (f : A -> string) (l : list A) : string :=
  match l with
  | [] => ""
  | x :: r => f x ++ concat_map f r
  end.

Fixpoint join (sep : string) (l : list string) : string :=
  match l with
  | [] => ""
  | [x] => x
  | x :: r => x ++ sep ++ join sep r
  end.

(* ================================================================== *)
(** * [json.dumps] *)

Definition is_high_surrogate (cp : N) : bool :=
  ((55296 <=? cp) && (cp <=? 56319))%N.
Definition is_low_surrogate (cp : N) : bool :=
  ((56320 <=? cp) && (cp <=? 57343))%N.

Definition u_escape (cp : N) : string := "\u" ++ hex4 cp.

(** One character of a JSON string literal; with [ensure_ascii] every
    character outside [' '..'~'] is written as a [\uXXXX] escape. *)
Definition json_escape (ensure_ascii : bool) (cp : N) : string :=
  (if cp =? 34 then String backslash (String dquote "")
   else if cp =? 92 then "\\"
   else if cp =? 10 then "\n"
   else if cp =? 13 then "\r"
   else if cp =? 9 then "\t"
   else if cp =? 8 then "\b"
   else if cp =? 12 then "\f"
   else if cp <? 32 then u_escape cp
   else if negb ensure_ascii || (cp <? 127) then utf8_encode1 cp
   else if cp <? 65536 then u_escape cp
   else u_escape (55296 + (cp - 65536) / 1024)
          ++ u_escape (56320 + (cp - 65536) mod 1024))%N%bool.

Definition json_string (ensure_ascii : bool) (s : string) : string :=
  String dquote (concat_map (json_escape ensure_ascii) (utf8_decode s))
    ++ String dquote "".

Definition json_float (r : string) : string :=
  if String.eqb r "nan" then "NaN"
  else if String.eqb r "inf" then "Infinity"
  else if String.eqb r "-inf" then "-Infinity"
  else r.

Definition not_serializable (t : string) : exn :=
  Exn TypeError ("Object of type " ++ t ++ " is not JSON serializable").

(** [json.dumps(v, ensure_ascii=...)] with the default separators. *)
Fixpoint json_dumps (ensure_ascii : bool) (v : pyval) : res string :=
  match v with
  | PNone => Ok "null"
  | PBool b => Ok (if b then "true" else "false")
  | PInt n => Ok (string_of_Z n)
  | PFloat r => Ok (json_float r)
  | PStr s => Ok (json_string ensure_ascii s)
  | PList xs =>
      items <- (fix items (l : list pyval) : res (list string) :=
                  match l with
                  | [] => Ok []
                  | x :: r =>
                      s <- json_dumps ensure_ascii x ;;
                      ss <- items r ;;
                      Ok (s :: ss)
                  end) xs ;;
      Ok ("[" ++ join ", " items ++ "]")
  | PDict kvs =>
      items <- (fix items (l : list (string * pyval)) : res (list string) :=
                  match l with
                  | [] => Ok []
                  | (k, x) :: r =>
                      s <- json_dumps ensure_ascii x ;;
                      ss <- items r ;;
                      Ok ((json_string ensure_ascii k ++ ": " ++ s) :: ss)
                  end) kvs ;;
      Ok ("{" ++ join ", " items ++ "}")
  | PObject t _ _ => Raise (not_serializable t)
  end.

(* ================================================================== *)
(** * [repr] and [str] *)

(** Code points [repr] writes as [\xNN]: the ASCII and Latin-1 controls,
    the no-break space and the soft hyphen (printability of code points
    above Latin-1 is not modelled: they are written as they are). *)
Definition repr_hex (cp : N) : bool :=
  ((cp <? 32) || (cp =? 127) || (128 <=? cp) && (cp <=? 160)
   || (cp =? 173))%N%bool.

Definition repr_escape (quote cp : N) : string :=
  (if (cp =? quote) || (cp =? 92) then String backslash (chr1 cp)
   else if cp =? 9 then "\t"
   else if cp =? 10 then "\n"
   else if cp =? 13 then "\r"
   else if repr_hex cp then "\x" ++ hex2 cp
   else utf8_encode1 cp)%N%bool.

Definition repr_str (s : string) : string :=
  let cps := utf8_decode s in
  let quote :=
    if (existsb (N.eqb 39) cps && negb (existsb (N.eqb 34) cps))%bool
    then 34%N else 39%N in
  chr1 quote ++ concat_map (repr_escape quote) cps ++ chr1 quote.

Fixpoint py_repr (v : pyval) : string :=
  match v with
  | PNone => "None"
  | PBool b => if b then "True" else "False"
  | PInt n => string_of_Z n
  | PFloat r => r
  | PStr s => repr_str s
  | PList xs => "[" ++ join ", " (map py_repr xs) ++ "]"
  | PDict kvs =>
      "{" ++ join ", "
               (map (fun kv => repr_str (fst kv) ++ ": " ++ py_repr (snd kv))
                    kvs) ++ "}"
  | PObject _ _ r => r
  end.

(** [str(v)]. *)
Definition py_str (v : pyval) : string :=
  match v with
  | PStr s => s
  | PObject _ s _ => s
  | _ => py_repr v
  end.

(* ================================================================== *)
(** * [json.loads] *)

(** The decoder of the [json] module: objects, arrays, strings with their
    escapes, numbers, [true], [false], [null] and the constants [NaN],
    [Infinity] and [-Infinity].  A float keeps the text of its literal.
    The position an error message reports is left out.  The decoder runs
    on fuel and raises [RecursionError] when it runs out; [json_loads]
    gives it enough for any text (see [json_loads_decode_error]): the
    recursion limit of the interpreter is not modelled. *)

Definition decode_error (msg : string) : exn := Exn JSONDecodeError msg.

Definition is_json_ws (c : ascii) : bool :=
  (Ascii.eqb c " " || Ascii.eqb c "009" || Ascii.eqb c "010"
   || Ascii.eqb c "013")%bool.

Fixpoint skip_ws (s : string) : string :=
  match s with
  | String c r => if is_json_ws c then skip_ws r else s
  | EmptyString => s
  end.

Definition is_digit (c : ascii) : bool :=
  ((48 <=? N_of_ascii c) && (N_of_ascii c <=? 57))%N.

Fixpoint span_digits (s : string) : string * string :=
  match s with
  | String c r =>
      if is_digit c then let (d, rest) := span_digits r in (String c d, rest)
      else ("", s)
  | EmptyString => ("", s)
  end.

Definition digits_value (d : string) : Z :=
  fold_left (fun acc cp => acc * 10 + (Z.of_N cp - 48))%Z
            (map N_of_ascii (list_ascii_of_string d)) 0%Z.

Definition hex_value (c : ascii) : option N :=
  let n := N_of_ascii c in
  (if (48 <=? n) && (n <=? 57) then Some (n - 48)
   else if (97 <=? n) && (n <=? 102) then Some (n - 87)
   else if (65 <=? n) && (n <=? 70) then Some (n - 55)
   else None)%N.

Definition hex4_value (h1 h2 h3 h4 : ascii) : option N :=
  match hex_value h1, hex_value h2, hex_value h3, hex_value h4 with
  | Some a, Some b, Some c, Some d => Some (((a * 16 + b) * 16 + c) * 16 + d)%N
  | _, _, _, _ => None
  end.

(** The one-character escapes of a JSON string ([BACKSLASH] of the module). *)
Definition simple_escape (c : ascii) : option string :=
  if Ascii.eqb c dquote then Some (String dquote "")
  else if Ascii.eqb c backslash then Some (String backslash "")
  else if Ascii.eqb c "/" then Some "/"
  else if Ascii.eqb c "b" then Some (chr1 8)
  else if Ascii.eqb c "f" then Some (chr1 12)
  else if Ascii.eqb c "n" then Some (chr1 10)
  else if Ascii.eqb c "r" then Some (chr1 13)
  else if Ascii.eqb c "t" then Some (chr1 9)
  else None.

Definition flush (hi : option N) : string :=
  match hi with Some h => utf8_encode1 h | None => "" end.

Definition prepend (p : string) (m : res (string * string))
  : res (string * string) :=
  match m with
  | Ok (s, rest) => Ok (p ++ s, rest)
  | Raise e => Raise e
  end.

(** The rest of [s] after its first character, when that is [c]. *)
Definition starts_with (c : ascii) (s : string) : option string :=
  match s with
  | String c' r => if Ascii.eqb c' c then Some r else None
  | EmptyString => None
  end.

(** A [\uXXXX] escape read after the high surrogate [hi], if any: a low
    surrogate completes the pair, a high one waits for its low half. *)
Definition unicode_escape (hi : option N) (cp : N) : string * option N :=
  match hi with
  | Some h =>
      if is_low_surrogate cp then
        (utf8_encode1 (65536 + (h - 55296) * 1024 + (cp - 56320))%N, None)
      else if is_high_surrogate cp then (utf8_encode1 h, Some cp)
      else (utf8_encode1 h ++ utf8_encode1 cp, None)
  | None =>
      if is_high_surrogate cp then ("", Some cp) else (utf8_encode1 cp, None)
  end.

(** The body of a string literal, after its opening quote.  [hi] is a high
    surrogate read from a [\uXXXX] escape and waiting for its low half. *)
Fixpoint scan_string (hi : option N) (s : string) : res (string * string) :=
  match s with
  | EmptyString => Raise (decode_error "Unterminated string starting at")
  | String c r =>
      if Ascii.eqb c dquote then Ok (flush hi, r)
      else if Ascii.eqb c backslash then
        match r with
        | EmptyString => Raise (decode_error "Unterminated string starting at")
        | String e r' =>
            if Ascii.eqb e "u" then
              match r' with
              | String h1 (String h2 (String h3 (String h4 r4))) =>
                  match hex4_value h1 h2 h3 h4 with
                  | None => Raise (decode_error "Invalid \uXXXX escape")
                  | Some cp =>
                      prepend (fst (unicode_escape hi cp))
                              (scan_string (snd (unicode_escape hi cp)) r4)
                  end
              | _ => Raise (decode_error "Invalid \uXXXX escape")
              end
            else
              match simple_escape e with
              | Some ch => prepend (flush hi ++ ch) (scan_string None r')
              | None => Raise (decode_error "Invalid \escape")
              end
        end
      else if (N_of_ascii c <? 32)%N then
        Raise (decode_error "Invalid control character at")
      else prepend (flush hi ++ String c "") (scan_string None r)
  end.

Fixpoint strip_prefix (p s : string) : option string :=
  match p, s with
  | EmptyString, _ => Some s
  | String a p', String b s' => if Ascii.eqb a b then strip_prefix p' s' else None
  | String _ _, EmptyString => None
  end.

(** The digits of a fraction or of an exponent: none read when there is
    no digit. *)
Definition scan_digits_after (mark s : string) : string * string :=
  let (d, r) := span_digits s in
  if String.eqb d "" then ("", mark ++ s) else (mark ++ d, r).

(** [NUMBER_RE]: an optional minus sign, then 0 or a digit string without
    leading zero, then an optional fraction (a dot and digits) and an
    optional exponent (e or E, an optional sign, digits). *)
Definition scan_number (s : string) : option (pyval * string) :=
  let (sign, s1) :=
    match starts_with "-" s with Some r => ("-", r) | None => ("", s) end in
  let (int_digits, s2) :=
    match starts_with "0" s1 with
    | Some r => ("0", r)
    | None => span_digits s1
    end in
  if String.eqb int_digits "" then None
  else
    let (frac, s3) :=
      match starts_with "." s2 with
      | Some r => scan_digits_after "." r
      | None => ("", s2)
      end in
    let (exp, s4) :=
      match s3 with
      | String e r =>
          if (Ascii.eqb e "e" || Ascii.eqb e "E")%bool then
            match starts_with "-" r, starts_with "+" r with
            | Some r1, _ => scan_digits_after (String e "-") r1
            | None, Some r1 => scan_digits_after (String e "+") r1
            | None, None => scan_digits_after (String e "") r
            end
          else ("", s3)
      | EmptyString => ("", s3)
      end in
    if (String.eqb frac "" && String.eqb exp "")%bool then
      Some (PInt (if String.eqb sign "-" then - digits_value int_digits
                  else digits_value int_digits)%Z, s4)
    else Some (PFloat (sign ++ int_digits ++ frac ++ exp), s4).

(** A value that is neither a string, an object nor an array. *)
Definition scan_atom (s : string) : res (pyval * string) :=
  match strip_prefix "null" s with
  | Some r => Ok (PNone, r)
  | None =>
  match strip_prefix "true" s with
  | Some r => Ok (PBool true, r)
  | None =>
  match strip_prefix "false" s with
  | Some r => Ok (PBool false, r)
  | None =>
  match scan_number s with
  | Some vr => Ok vr
  | None =>
  match strip_prefix "NaN" s with
  | Some r => Ok (PFloat "nan", r)
  | None =>
  match strip_prefix "Infinity" s with
  | Some r => Ok (PFloat "inf", r)
  | None =>
  match strip_prefix "-Infinity" s with
  | Some r => Ok (PFloat "-inf", r)
  | None => Raise (decode_error "Expecting value")
  end end end end end end end.

Definition recursion_error : exn :=
  Exn RecursionError "maximum recursion depth exceeded".

Fixpoint scan_once (fuel : nat) (s : string) : res (pyval * string) :=
  match fuel with
  | O => Raise recursion_error
  | S fuel' =>
      match s with
      | EmptyString => Raise (decode_error "Expecting value")
      | String c r =>
          if Ascii.eqb c dquote then
            match scan_string None r with
            | Ok (str, rest) => Ok (PStr str, rest)
            | Raise e => Raise e
            end
          else if Ascii.eqb c "{" then
            match starts_with "}" (skip_ws r) with
            | Some rest => Ok (PDict [], rest)
            | None => scan_members fuel' [] (skip_ws r)
            end
          else if Ascii.eqb c "[" then
            match starts_with "]" (skip_ws r) with
            | Some rest => Ok (PList [], rest)
            | None => scan_items fuel' [] (skip_ws r)
            end
          else scan_atom s
      end
  end

(** The items of an array, [s] standing at the next item. *)
with scan_items (fuel : nat) (acc : list pyval) (s : string)
  : res (pyval * string) :=
  match fuel with
  | O => Raise recursion_error
  | S fuel' =>
      match scan_once fuel' s with
      | Raise e => Raise e
      | Ok (v, rest) =>
          match starts_with "]" (skip_ws rest),
                starts_with "," (skip_ws rest) with
          | Some rest', _ => Ok (PList (acc ++ [v]), rest')
          | None, Some rest' => scan_items fuel' (acc ++ [v]) (skip_ws rest')
          | None, None => Raise (decode_error "Expecting ',' delimiter")
          end
      end
  end

(** The members of an object, [s] standing at the next key. *)
with scan_members (fuel : nat) (acc : list (string * pyval)) (s : string)
  : res (pyval * string) :=
  match fuel with
  | O => Raise recursion_error
  | S fuel' =>
      match starts_with dquote s with
      | None =>
          Raise (decode_error
                   "Expecting property name enclosed in double quotes")
      | Some r =>
          match scan_string None r with
          | Raise e => Raise e
          | Ok (key, rest) =>
              match starts_with ":" (skip_ws rest) with
              | None => Raise (decode_error "Expecting ':' delimiter")
              | Some rest' =>
                  match scan_once fuel' (skip_ws rest') with
                  | Raise e => Raise e
                  | Ok (v, rest'') =>
                      match starts_with "}" (skip_ws rest''),
                            starts_with "," (skip_ws rest'') with
                      | Some rest3, _ => Ok (PDict (setitem acc key v), rest3)
                      | None, Some rest3 =>
                          scan_members fuel' (setitem acc key v) (skip_ws rest3)
                      | None, None =>
                          Raise (decode_error "Expecting ',' delimiter")
                      end
                  end
              end
          end
      end
  end.

(** [json.loads(s)]. *)
Definition json_loads (s : string) : res pyval :=
  match scan_once (2 * String.length s + 2) (skip_ws s) with
  | Raise e => Raise e
  | Ok (v, rest) =>
      match skip_ws rest with
      | EmptyString => Ok v
      | _ => Raise (decode_error "Extra data")
      end
  end.

(** Writing JSON texts in examples: every ['] stands for a double quote. *)
Fixpoint q (s : string) : string :=
  match s with
  | EmptyString => EmptyString
  | String c r => String (if Ascii.eqb c squote then dquote else c) (q r)
  end.

(* ================================================================== *)
(** * Messages, tools and the endpoint *)

(** A tool call of an assistant reply: [tool_call.id],
    [tool_call.function.name] and [tool_call.function.arguments]. *)
Record tool_call := ToolCall {
  tc_id : string;
  tc_name : string;
  tc_arguments : string }.

(** The message of a reply, [response.choices[0].message]. A reply without
    tool calls has [tool_calls] empty ([None] and [[]] are both false). *)
Record chat_message := ChatMessage {
  content : option string;
  tool_calls : list tool_call }.

(** The entries of [messages].  A tool message is a dict whose [name] key
    is present or not. *)
Inductive message :=
| RoleContent (role text : string)
| AssistantDict (text : string) (calls : list tool_call)
| AssistantObject (m : chat_message)
| ToolMessage (tool_call_id : string) (name : option string) (text : string).

(** A tool is called with keyword arguments and returns or raises. *)
Definition tool := kwargs -> res pyval.

(** [client.chat.completions.create(messages=...)]: the reply, or the
    exception of the client. *)
Definition endpoint := list message -> res chat_message.

Definition content_or (c : option string) (d : string) : string :=
  match c with Some s => str_or s d | None => d end.

Definition is_tool_message (m : message) : bool :=
  match m with ToolMessage _ _ _ => true | _ => false end.

Definition tool_call_id_of (m : message) : option string :=
  match m with ToolMessage i _ _ => Some i | _ => None end.

Definition name_of (m : message) : option string :=
  match m with ToolMessage _ n _ => n | _ => None end.

(** ** Calling a Python function with [**parsed_args] *)

Definition unexpected_keyword (params : list string) (kw : kwargs)
  : option string :=
  match filter (fun kv => negb (existsb (String.eqb (fst kv)) params)) kw with
  | [] => None
  | (k, _) :: _ => Some k
  end.

Definition unexpected (fname k : string) : exn :=
  Exn TypeError
      (fname ++ "() got an unexpected keyword argument '" ++ k ++ "'").

Definition missing (fname p : string) : exn :=
  Exn TypeError
      (fname ++ "() missing 1 required positional argument: '" ++ p ++ "'").

Definition keyword (kw : kwargs) (p : string) (default : pyval) : pyval :=
  match get kw p with Some v => v | None => default end.

(** [def fname(p1=None, p2=None)]. *)
Definition def_optional2 (fname p1 p2 : string)
           (body : pyval -> pyval -> res pyval) : tool :=
  fun kw =>
    match unexpected_keyword [p1; p2] kw with
    | Some k => Raise (unexpected fname k)
    | None => body (keyword kw p1 PNone) (keyword kw p2 PNone)
    end.

(** [def fname(p1, p2=None)]. *)
Definition def_required1_optional1 (fname p1 p2 : string)
           (body : pyval -> pyval -> res pyval) : tool :=
  fun kw =>
    match unexpected_keyword [p1; p2] kw with
    | Some k => Raise (unexpected fname k)
    | None =>
        match get kw p1 with
        | None => Raise (missing fname p1)
        | Some v1 => body v1 (keyword kw p2 PNone)
        end
    end.

(** [target( **parsed_args )], [target] being [tool_mapping.get(fn_name)]:
    the operand of [**] must be a mapping, and [None] is not callable. *)
Definition function_str (fname : string) (target : option tool) : string :=
  match target with
  | Some _ => fname ++ "()"
  | None => "NoneType object"
  end.

Definition call (fname : string) (target : option tool) (parsed_args : pyval)
  : res pyval :=
  match parsed_args with
  | PDict kw =>
      match target with
      | Some f => f kw
      | None => Raise (Exn TypeError "'NoneType' object is not callable")
      end
  | v => Raise (Exn TypeError
                    (function_str fname target
                       ++ " argument after ** must be a mapping, not "
                       ++ type_name_of v))
  end.

(* ================================================================== *)
(** * The state of a run *)

(** What a run does besides updating [messages]: the requests it sends to
    the endpoint, the passes over the tool calls of a reply, and the
    answer it prints. *)
Inductive event :=
| ModelCall (sent : list message)
| DispatchPass (calls : list tool_call)
| Answer (text : option string).

Record state := State {
  messages : list message;
  trace : list event }.

(** A step of a script: it returns or raises, and leaves a state. *)
Definition M (A : Type) : Type := state -> res A * state.

Definition ret {A} (a : A) : M A := fun st => (Ok a, st).

Definition bindM {A B} (m : M A) (k : A -> M B) : M B :=
  fun st =>
    match m st with
    | (Ok a, st') => k a st'
    | (Raise e, st') => (Raise e, st')
    end.

Notation "x <~ m ;; k" := (bindM m (fun x => k))
  (at level 61, m at next level, right associativity).
Notation "m ;;; k" := (bindM m (fun _ => k))
  (at level 61, right associativity).

Definition lift {A} (r : res A) : M A := fun st => (r, st).

Definition emit (ev : event) : M unit :=
  fun st => (Ok tt, State (messages st) (trace st ++ [ev])).

(** [messages.append(m)]. *)
Definition append (m : message) : M unit :=
  fun st => (Ok tt, State (messages st ++ [m]) (trace st)).

(** [client.chat.completions.create(..., messages=messages, ...)]. *)
Definition create (ep : endpoint) : M chat_message :=
  fun st =>
    (ep (messages st),
     State (messages st) (trace st ++ [ModelCall (messages st)])).

Fixpoint for_each {A} (body : A -> M unit) (l : list A) : M unit :=
  match l with
  | [] => ret tt
  | x :: r => body x ;;; for_each body r
  end.



Definition answers (t : list event) : list (option string) :=
  flat_map (fun ev => match ev with Answer c => [c] | _ => [] end) t.

Definition tool_messages (ms : list message) : list message :=
  filter is_tool_message ms.

(* ================================================================== *)
(** * Guarded dispatch, single round trip

    [function_calling_extended_errors.py], [function_calling_fewshots.py],
    [spanish/function_calling_errors.py],
    [spanish/function_calling_extended_errors.py] and
    [spanish/function_calling_fewshots.py] share the code below and differ
    in their tools and in the texts collected in [script]. *)

Record script := Script {
  tool_mapping : list (string * tool);
  no_implementation : string -> string;
  malformed_warning : string;
  execution_error : string -> string -> string;
  ensure_ascii : bool;
  fallback_key : string }.

(** [json.loads(raw_args) if raw_args.strip() else {}]. *)
Definition parse_arguments (raw_args : string) : res pyval :=
  if String.eqb (strip raw_args) "" then Ok (PDict []) else json_loads raw_args.

(** The value of [tool_result] when the serialization is reached. *)
Definition tool_result_of (sc : script) (tool_call : tool_call) : res pyval :=
  let fn_name := tc_name tool_call in
  let raw_args := str_or (tc_arguments tool_call) "{}" in
  match get (tool_mapping sc) fn_name with
  | None => Ok (PStr (no_implementation sc fn_name))
  | Some target =>
      match parse_arguments raw_args with
      | Raise e =>
          if exn_class_eqb (exn_cls e) JSONDecodeError
          then Ok (PStr (malformed_warning sc))
          else Raise e
      | Ok parsed_args =>
          match call fn_name (Some target) parsed_args with
          | Ok v => Ok v
          | Raise e => Ok (PStr (execution_error sc fn_name (exn_msg e)))
          end
      end
  end.

(** The value of [tool_content]. *)
Definition tool_content_of (sc : script) (tool_result : pyval) : res string :=
  match json_dumps (ensure_ascii sc) tool_result with
  | Ok s => Ok s
  | Raise _ =>
      json_dumps (ensure_ascii sc)
                 (PDict [(fallback_key sc, PStr (py_str tool_result))])
  end.

(** The body of [for tool_call in assistant_msg.tool_calls]. *)
Definition process_tool_call (sc : script) (tool_call : tool_call) : M unit :=
  tool_result <~ lift (tool_result_of sc tool_call) ;;
  tool_content <~ lift (tool_content_of sc tool_result) ;;
  append (ToolMessage (tc_id tool_call) (Some (tc_name tool_call)) tool_content).

(** The script from the first request on. *)
Definition single_round_trip (sc : script) (ep : endpoint) : M unit :=
  assistant_msg <~ create ep ;;
  match tool_calls assistant_msg with
  | [] => emit (Answer (content assistant_msg))
  | tcs =>
      append (AssistantDict (content_or (content assistant_msg) "") tcs) ;;;
      emit (DispatchPass tcs) ;;;
      for_each (process_tool_call sc) tcs ;;;
      final_msg <~ create ep ;;
      emit (Answer (content final_msg))
  end.

(* ================================================================== *)
(** * Unguarded dispatch, continuous loop

    [function_calling_while_loop.py] and its Spanish counterpart. *)

(** The body of [for tool_call in assistant_message.tool_calls]. *)
Definition execute_tool_call (tool_mapping : list (string * tool))
           (tool_call : tool_call) : M unit :=
  let fn_name := tc_name tool_call in
  let raw_args := str_or (tc_arguments tool_call) "{}" in
  let target_tool := get tool_mapping fn_name in
  parsed_args <~ lift (json_loads raw_args) ;;
  tool_result <~ lift (call fn_name target_tool parsed_args) ;;
  tool_result_str <~ lift (json_dumps true tool_result) ;;
  append (ToolMessage (tc_id tool_call) (Some fn_name) tool_result_str).

(** One turn of [while True]: [true] when it reaches [break]. *)
Definition iteration (tool_mapping : list (string * tool)) (ep : endpoint)
  : M bool :=
  assistant_message <~ create ep ;;
  match tool_calls assistant_message with
  | [] => emit (Answer (content assistant_message)) ;;; ret true
  | tcs =>
      append (AssistantDict (content_or (content assistant_message) "") tcs) ;;;
      emit (DispatchPass tcs) ;;;
      for_each (execute_tool_call tool_mapping) tcs ;;;
      ret false
  end.

Inductive loop_exit := Break | StillLooping.

(** [while True] unrolled at most [fuel] times. *)
Fixpoint while_loop (fuel : nat) (tool_mapping : list (string * tool))
         (ep : endpoint) : M loop_exit :=
  match fuel with
  | O => ret StillLooping
  | S fuel' =>
      stop <~ iteration tool_mapping ep ;;
      if stop : bool then ret Break else while_loop fuel' tool_mapping ep
  end.

(* ================================================================== *)
(** * Thread-pool dispatch

    [function_calling_parallel.py] and its Spanish counterpart.  A future
    is the index of its task among the tasks submitted to the executor.
    The pool completes the tasks in the order of a schedule; the result of
    a future is there once its task has completed. *)

Definition task : Type := tool * kwargs.
Definition pending : Type := tool_call * string * nat.

(** [for tool_call in tool_calls], submitting. *)
Fixpoint submit_all (available_functions : list (string * tool))
         (tcs : list tool_call) (tasks : list task) (futures : list pending)
  : res (list task * list pending) :=
  match tcs with
  | [] => Ok (tasks, futures)
  | tool_call :: r =>
      let function_name := tc_name tool_call in
      arguments <- json_loads (tc_arguments tool_call) ;;
      match get available_functions function_name with
      | Some f =>
          match arguments with
          | PDict kw =>
              submit_all available_functions r (tasks ++ [(f, kw)])
                         (futures ++ [(tool_call, function_name, length tasks)])
          | v =>
              Raise (Exn TypeError
                         ("ThreadPoolExecutor.submit() argument after ** "
                            ++ "must be a mapping, not " ++ type_name_of v))
          end
      | None => submit_all available_functions r tasks futures
      end
  end.

(** The results the pool has produced when every task named by the
    schedule has run, in completion order. *)
Definition run_pool (tasks : list task) (schedule : list nat)
  : list (nat * res pyval) :=
  flat_map (fun i => match nth_error tasks i with
                     | Some (f, kw) => [(i, f kw)]
                     | None => []
                     end) schedule.

(** [future.result()]: [None] when the task never completes. *)
Fixpoint future_result (completed : list (nat * res pyval)) (fut : nat)
  : option (res pyval) :=
  match completed with
  | [] => None
  | (i, r) :: rest => if Nat.eqb i fut then Some r else future_result rest fut
  end.

(** [for tool_call, function_name, future in futures]. *)
Fixpoint collect (completed : list (nat * res pyval)) (futures : list pending)
         (st : state) : option (res unit * state) :=
  match futures with
  | [] => Some (Ok tt, st)
  | (tool_call, function_name, fut) :: r =>
      match future_result completed fut with
      | None => None
      | Some outcome =>
          match (result <~ lift outcome ;;
                 text <~ lift (json_dumps true result) ;;
                 append (ToolMessage (tc_id tool_call) None text)) st with
          | (Ok _, st') => collect completed r st'
          | (Raise e, st') => Some (Raise e, st')
          end
      end
  end.

(** The [with ThreadPoolExecutor() as executor] block. *)
Definition dispatch_parallel (available_functions : list (string * tool))
           (schedule : list nat) (tcs : list tool_call) (st : state)
  : option (res unit * state) :=
  match submit_all available_functions tcs [] [] with
  | Raise e => Some (Raise e, st)
  | Ok (tasks, futures) => collect (run_pool tasks schedule) futures st
  end.

(** The script from the first request on. *)
Definition parallel (available_functions : list (string * tool))
           (schedule : list nat) (ep : endpoint) (st : state)
  : option (res unit * state) :=
  match create ep st with
  | (Raise e, st1) => Some (Raise e, st1)
  | (Ok message, st1) =>
      match tool_calls message with
      | [] => Some (emit (Answer (content message)) st1)
      | tcs =>
          match dispatch_parallel available_functions schedule tcs
                  (snd ((append (AssistantObject message) ;;;
                         emit (DispatchPass tcs)) st1)) with
          | None => None
          | Some (Raise e, st2) => Some (Raise e, st2)
          | Some (Ok _, st2) =>
              Some ((final_response <~ create ep ;;
                     emit (Answer (content final_response))) st2)
          end
      end
  end.

(* ================================================================== *)
(** * The tools and texts of each script *)

(** ** Operations of [search_database] on its arguments *)

(** [needle in c]. *)
Definition contains (needle : string) (c : pyval) : res bool :=
  match c with
  | PDict kvs => Ok (mem needle kvs)
  | PStr s => Ok (match index 0 needle s with Some _ => true | None => false end)
  | PList xs =>
      Ok (existsb (fun x => match x with
                            | PStr s => String.eqb s needle
                            | _ => false
                            end) xs)
  | v => Raise (Exn TypeError
                    ("argument of type '" ++ type_name_of v
                       ++ "' is not iterable"))
  end.

(** [c[key]] for a string key. *)
Definition getitem (c : pyval) (key : string) : res pyval :=
  match c with
  | PDict kvs =>
      match get kvs key with
      | Some v => Ok v
      | None => Raise (Exn KeyError (repr_str key))
      end
  | PStr _ => Raise (Exn TypeError "string indices must be integers, not 'str'")
  | PList _ =>
      Raise (Exn TypeError "list indices must be integers or slices, not str")
  | v => Raise (Exn TypeError
                    ("'" ++ type_name_of v ++ "' object is not subscriptable"))
  end.

(** [v in options], [options] a set of strings: [v] must be hashable. *)
Definition in_set (v : pyval) (options : list string) : res bool :=
  match v with
  | PList _ | PDict _ =>
      Raise (Exn TypeError ("unhashable type: '" ++ type_name_of v ++ "'"))
  | PStr s => Ok (existsb (String.eqb s) options)
  | _ => Ok false
  end.

(** [isinstance(v, int | float)]; [bool] is a subclass of [int]. *)
Definition is_number (v : pyval) : bool :=
  match v with
  | PInt _ | PBool _ | PFloat _ => true
  | _ => false
  end.

(** The body of [search_database], with the texts of its errors and the
    name of its product. *)
Definition search_database_body (required both invalid numeric product : string)
           (search_query price_filter : pyval) : res pyval :=
  if negb (truthy search_query) then Raise (Exn ValueError required)
  else
    checked <-
      (if truthy price_filter then
         has_op <- contains "comparison_operator" price_filter ;;
         has_value <- (if has_op then contains "value" price_filter
                       else Ok true) ;;
         if (negb has_op || negb has_value)%bool
         then Raise (Exn ValueError both)
         else
           op <- getitem price_filter "comparison_operator" ;;
           known <- in_set op [">"; "<"; ">="; "<="; "="] ;;
           if negb known then Raise (Exn ValueError invalid)
           else
             v <- getitem price_filter "value" ;;
             if negb (is_number v) then Raise (Exn ValueError numeric)
             else Ok tt
       else Ok tt) ;;
    Ok (PList [PDict [("id", PStr "123"); ("name", PStr product);
                      ("price", PFloat "19.99")]]).

(** The location of [lookup_weather] and [lookup_movies]. *)
Definition location_of (city_name zip_code : pyval) (unknown : string) : pyval :=
  py_or (py_or city_name zip_code) (PStr unknown).

Module ExtendedErrors.

Definition lookup_weather : tool :=
  def_optional2 "lookup_weather" "city_name" "zip_code"
    (fun city_name zip_code =>
       let location := location_of city_name zip_code "unknown" in
       Ok (PDict [("location", location);
                  ("weather", PStr "sunny");
                  ("temperature_f", PInt 75);
                  ("advice", PStr "Great day to be outside!")])).

Definition tool_mapping : list (string * tool) :=
  [("lookup_weather", lookup_weather)].

Definition script : script :=
  Script tool_mapping
    (fun fn_name =>
       "ERROR: No implementation registered for tool '" ++ fn_name ++ "'")
    "Warning: Malformed JSON arguments received; proceeding with empty args"
    (fun fn_name e => "Tool execution error in " ++ fn_name ++ ": " ++ e)
    true "result".

Definition messages : list message :=
  [RoleContent "system" "You are a weather chatbot.";
   RoleContent "user" "is it sunny in berkeley CA?"].

End ExtendedErrors.

Module FewShots.

Definition search_database : tool :=
  def_required1_optional1 "search_database" "search_query" "price_filter"
    (search_database_body
       "search_query is required"
       "Both comparison_operator and value are required in price_filter"
       "Invalid comparison_operator in price_filter"
       "Value in price_filter must be a number"
       "Example Product").

Definition tool_mapping : list (string * tool) :=
  [("search_database", search_database)].

Definition script : script :=
  Script tool_mapping
    (fun fn_name =>
       "ERROR: No implementation registered for tool '" ++ fn_name ++ "'")
    "Warning: Malformed JSON arguments received; proceeding with empty args"
    (fun fn_name e => "Tool execution error in " ++ fn_name ++ ": " ++ e)
    true "result".

Definition messages : list message :=
  [RoleContent "system" "You are a product search assistant.";
   RoleContent "user"
     "good options for climbing gear that can be used outside?";
   AssistantDict ""
     [ToolCall "call_abc123" "search_database"
        (q "{'search_query':'climbing gear outside'}")];
   ToolMessage "call_abc123" (Some "search_database")
     "Search results for climbing gear that can be used outside: ...";
   RoleContent "user" "are there any shoes less than $50?";
   AssistantDict ""
     [ToolCall "call_abc456" "search_database"
        (q ("{'search_query':'tenis','price_filter':"
              ++ "{'comparison_operator':'<','value':50}}"))];
   ToolMessage "call_abc456" (Some "search_database")
     "Search results for shoes cheaper than 50: ...";
   RoleContent "user" "Find me a red shirt under $20."].

End FewShots.

Module WhileLoop.

Definition lookup_weather : tool :=
  def_optional2 "lookup_weather" "city_name" "zip_code"
    (fun city_name zip_code =>
       let location := location_of city_name zip_code "unknown" in
       Ok (PDict [("location", location);
                  ("condition", PStr "rain showers");
                  ("rain_mm_last_24h", PInt 7);
                  ("recommendation",
                   PStr ("Good day for indoor activities "
                           ++ "if you dislike drizzle."))])).

Definition lookup_movies : tool :=
  def_optional2 "lookup_movies" "city_name" "zip_code"
    (fun city_name zip_code =>
       let location := location_of city_name zip_code "unknown" in
       Ok (PDict [("location", location);
                  ("movies",
                   PList [PDict [("title", PStr "The Quantum Reef");
                                 ("rating", PStr "PG-13")];
                          PDict [("title", PStr "Storm Over Harbour Bay");
                                 ("rating", PStr "PG")];
                          PDict [("title", PStr "Midnight Koala");
                                 ("rating", PStr "R")]])])).

Definition tool_mapping : list (string * tool) :=
  [("lookup_weather", lookup_weather); ("lookup_movies", lookup_movies)].

Definition messages : list message :=
  [RoleContent "system" "You are a tourism chatbot.";
   RoleContent "user"
     "Is it rainy enough in Sydney to watch movies and which ones are on?"].

Definition run (fuel : nat) (ep : endpoint) : M loop_exit :=
  while_loop fuel tool_mapping ep.

End WhileLoop.

Module Parallel.

(** The two tools are those of [function_calling_while_loop.py]. *)
Definition lookup_weather : tool := WhileLoop.lookup_weather.
Definition lookup_movies : tool := WhileLoop.lookup_movies.

Definition available_functions : list (string * tool) :=
  [("lookup_weather", lookup_weather); ("lookup_movies", lookup_movies)].

Definition messages : list message :=
  [RoleContent "system" "You are a tourism chatbot.";
   RoleContent "user"
     "is it rainy enough in sydney to watch movies and which ones are on?"].

Definition run (schedule : list nat) (ep : endpoint)
  : state -> option (res unit * state) :=
  parallel available_functions schedule ep.

End Parallel.

Module Spanish.

Module ExtendedErrors.

Definition lookup_weather : tool :=
  def_optional2 "lookup_weather" "city_name" "zip_code"
    (fun city_name zip_code =>
       let location := location_of city_name zip_code "desconocido" in
       Ok (PDict [("ubicacion", location);
                  ("clima", PStr "soleado");
                  ("temperatura_f", PInt 75);
                  ("consejo", PStr "¡Gran día para estar al aire libre!")])).

Definition tool_mapping : list (string * tool) :=
  [("lookup_weather", lookup_weather)].

Definition script : script :=
  Script tool_mapping
    (fun fn_name =>
       "ERROR: No hay implementación registrada para la herramienta '"
         ++ fn_name ++ "'")
    ("Advertencia: JSON de argumentos malformado; "
       ++ "se continúa con argumentos vacíos")
    (fun fn_name e =>
       "Error ejecutando la herramienta " ++ fn_name ++ ": " ++ e)
    false "resultado".

End ExtendedErrors.

(** [spanish/function_calling_errors.py]; the dispatch of
    [spanish/function_calling_fewshots.py] has the same tool and texts. *)
Module Errors.

Definition search_database : tool :=
  def_required1_optional1 "search_database" "search_query" "price_filter"
    (search_database_body
       "search_query es requerido"
       "Se requieren comparison_operator y value en price_filter"
       "comparison_operator inválido en price_filter"
       "value en price_filter debe ser numérico"
       "Producto Ejemplo").

Definition tool_mapping : list (string * tool) :=
  [("search_database", search_database)].

Definition script : script :=
  Script tool_mapping
    (fun fn_name =>
       "ERROR: No hay implementación registrada para la tool '"
         ++ fn_name ++ "'")
    "Warning: JSON arguments malformados; sigo con args vacíos"
    (fun fn_name e => "Error ejecutando la tool " ++ fn_name ++ ": " ++ e)
    true "result".

End Errors.

Module WhileLoop.

Definition lookup_weather : tool :=
  def_optional2 "lookup_weather" "city_name" "zip_code"
    (fun city_name zip_code =>
       let location := location_of city_name zip_code "desconocido" in
       Ok (PDict [("ubicacion", location);
                  ("condicion", PStr "chubascos");
                  ("lluvia_mm_ult_24h", PInt 7);
                  ("recomendacion",
                   PStr ("Buen día para actividades bajo techo "
                           ++ "si no te gusta la llovizna."))])).

Definition lookup_movies : tool :=
  def_optional2 "lookup_movies" "city_name" "zip_code"
    (fun city_name zip_code =>
       let location := location_of city_name zip_code "desconocido" in
       Ok (PDict [("ubicacion", location);
                  ("peliculas",
                   PList [PDict [("titulo", PStr "El Arrecife Cuántico");
                                 ("clasificacion", PStr "PG-13")];
                          PDict [("titulo",
                                  PStr "Tormenta Sobre Bahía Puerto");
                                 ("clasificacion", PStr "PG")];
                          PDict [("titulo", PStr "Koala de Medianoche");
                                 ("clasificacion", PStr "R")]])])).

Definition tool_mapping : list (string * tool) :=
  [("lookup_weather", lookup_weather); ("lookup_movies", lookup_movies)].

End WhileLoop.

(** [spanish/function_calling_parallel.py] keeps the English tools. *)
Module Parallel.

Definition available_functions : list (string * tool) :=
  Parallel.available_functions.

End Parallel.

End Spanish.

(* ================================================================== *)
(** * The client setup

    The lines every script starts with, after [load_dotenv]: [env] is the
    environment these lines read. *)

Definition environ := list (string * string).

(** [os.environ[key]]. *)
Definition environ_item (env : environ) (key : string) : res string :=
  match get env key with
  | Some v => Ok v
  | None => Raise (Exn KeyError (repr_str key))
  end.

(** [os.getenv(key, default)]. *)
Definition getenv (env : environ) (key default : string) : string :=
  match get env key with
  | Some v => v
  | None => default
  end.

(** The [api_key] of a client: a key, or the bearer token provider of the
    default Azure credential for a scope. *)
Inductive credential :=
| ApiKey (key : string)
| BearerTokenProvider (scope : string).

(** [openai.OpenAI(base_url=..., api_key=...)]; without [base_url] the
    client keeps the default of the library. *)
Record client := Client {
  base_url : option string;
  api_key : credential }.

Record settings := Settings {
  API_HOST : string;
  the_client : client;
  MODEL_NAME : string }.

Definition setup (env : environ) : res settings :=
  let API_HOST := getenv env "API_HOST" "github" in
  if String.eqb API_HOST "azure" then
    let token_provider :=
      BearerTokenProvider "https://cognitiveservices.azure.com/.default" in
    base <- environ_item env "AZURE_OPENAI_ENDPOINT" ;;
    let client := Client (Some base) token_provider in
    model <- environ_item env "AZURE_OPENAI_CHAT_DEPLOYMENT" ;;
    Ok (Settings API_HOST client model)
  else if String.eqb API_HOST "ollama" then
    base <- environ_item env "OLLAMA_ENDPOINT" ;;
    let client := Client (Some base) (ApiKey "nokeyneeded") in
    model <- environ_item env "OLLAMA_MODEL" ;;
    Ok (Settings API_HOST client model)
  else if String.eqb API_HOST "github" then
    token <- environ_item env "GITHUB_TOKEN" ;;
    let client :=
      Client (Some "https://models.github.ai/inference") (ApiKey token) in
    Ok (Settings API_HOST client (getenv env "GITHUB_MODEL" "openai/gpt-4o"))
  else
    key <- environ_item env "OPENAI_KEY" ;;
    let client := Client None (ApiKey key) in
    model <- environ_item env "OPENAI_MODEL" ;;
    Ok (Settings API_HOST client model).

(** The variables a host cannot do without, in the order the setup reads
    them. *)
Definition required_variables (host : string) : list string :=
  if String.eqb host "azure" then
    ["AZURE_OPENAI_ENDPOINT"; "AZURE_OPENAI_CHAT_DEPLOYMENT"]
  else if String.eqb host "ollama" then ["OLLAMA_ENDPOINT"; "OLLAMA_MODEL"]
  else if String.eqb host "github" then ["GITHUB_TOKEN"]
  else ["OPENAI_KEY"; "OPENAI_MODEL"].

(** The first of [keys] that [env] does not define. *)
Fixpoint first_missing (env : environ) (keys : list string) : option string :=
  match keys with
  | [] => None
  | k :: r => if mem k env then first_missing env r else Some k
  end.

(* ================================================================== *)
(** * The functions offered to the model

    The [tools] list of each script, as the Python value it is. *)

Definition string_property (description : string) : pyval :=
  PDict [("type", PStr "string"); ("description", PStr description)].

(** The descriptor of [lookup_weather] and [lookup_movies]; [extra] holds
    the keys a script adds before [additionalProperties]. *)
Definition lookup_descriptor (name description city zip : string)
           (extra : list (string * pyval)) : pyval :=
  PDict
    [("type", PStr "function");
     ("function",
      PDict
        [("name", PStr name);
         ("description", PStr description);
         ("parameters",
          PDict
            ([("type", PStr "object");
              ("properties",
               PDict [("city_name", string_property city);
                      ("zip_code", string_property zip)])]
               ++ extra ++ [("additionalProperties", PBool false)]))])].

Definition search_descriptor
           (description query filter operator value : string) : pyval :=
  PDict
    [("type", PStr "function");
     ("function",
      PDict
        [("name", PStr "search_database");
         ("description", PStr description);
         ("parameters",
          PDict
            [("type", PStr "object");
             ("properties",
              PDict
                [("search_query", string_property query);
                 ("price_filter",
                  PDict
                    [("type", PStr "object");
                     ("description", PStr filter);
                     ("properties",
                      PDict
                        [("comparison_operator", string_property operator);
                         ("value",
                          PDict [("type", PStr "number");
                                 ("description", PStr value)])])])]);
             ("required", PList [PStr "search_query"])])])].

Module Tools.

(** [function_calling_extended_errors.py] and its Spanish counterpart. *)
Definition extended_errors : list pyval :=
  [lookup_descriptor "lookup_weather"
     "Lookup the weather for a given city name or zip code."
     "The city name" "The zip code" [("strict", PBool true)]].

(** [function_calling_while_loop.py], its Spanish counterpart and
    [function_calling_parallel.py]. *)
Definition while_loop : list pyval :=
  [lookup_descriptor "lookup_weather"
     "Lookup the weather for a given city name or zip code."
     "The city name" "The zip code" [];
   lookup_descriptor "lookup_movies"
     "Lookup movies playing in a given city name or zip code."
     "The city name" "The zip code" []].

(** [spanish/function_calling_parallel.py]. *)
Definition spanish_parallel : list pyval :=
  [lookup_descriptor "lookup_weather"
     "Busca el clima según nombre de ciudad o código postal."
     "El nombre de la ciudad" "El código postal" [];
   lookup_descriptor "lookup_movies"
     "Buscar películas en cines según nombre de ciudad o código postal."
     "El nombre de la ciudad" "El código postal" []].

(** [function_calling_fewshots.py]. *)
Definition fewshots : list pyval :=
  [search_descriptor
     "Search database for relevant products based on user query"
     "Query string to use for full text search, e.g. 'red shoes'"
     "Filter search results based on price of the product"
     "Operator to compare the column value, either '>', '<', '>=', '<=', '='"
     "Value to compare against, e.g. 30"].

(** [spanish/function_calling_errors.py]. *)
Definition spanish_errors : list pyval :=
  [search_descriptor
     "Busca en la base de datos productos relevantes según el query del usuario"
     "Texto (query) para búsqueda full text, ej: 'tenis rojos'"
     "Filtra resultados según el precio del producto"
     "Operador para comparar el valor de la columna: '>', '<', '>=', '<=', '='"
     "Valor límite para comparar, ej: 30"].

(** [spanish/function_calling_fewshots.py]. *)
Definition spanish_fewshots : list pyval :=
  [search_descriptor
     "Busca productos relevantes según el query del usuario"
     "Texto (query) para búsqueda full text, ej: 'tenis rojos'"
     "Filtra resultados según el precio del producto"
     "Operador para comparar el valor de la columna: '>', '<', '>=', '<=', '='"
     "Valor límite para comparar, ej: 30"].

End Tools.

(** [d[k]] on a dict, [None] when [k] is missing. *)
Definition item (d : pyval) (k : string) : pyval :=
  match d with
  | PDict kvs => match get kvs k with Some v => v | None => PNone end
  | _ => PNone
  end.

Definition keys (d : pyval) : list string :=
  match d with PDict kvs => map fst kvs | _ => [] end.

Definition strings (v : pyval) : list string :=
  match v with
  | PList xs => flat_map (fun x => match x with PStr s => [s] | _ => [] end) xs
  | _ => []
  end.

Definition descriptor_name (d : pyval) : string :=
  match item (item d "function") "name" with PStr s => s | _ => "" end.

Definition declared_properties (d : pyval) : list string :=
  keys (item (item (item d "function") "parameters") "properties").

Definition required_properties (d : pyval) : list string :=
  strings (item (item (item d "function") "parameters") "required").

(** Arguments that use declared properties only, and every required one. *)
Definition uses_declared (d : pyval) (kw : kwargs) : bool :=
  (forallb (fun kv => existsb (String.eqb (fst kv)) (declared_properties d)) kw
   && forallb (fun p => mem p kw) (required_properties d))%bool.

(** The [TypeError] of a call whose keywords do not fit the signature. *)
Definition binding_error (name : string) (e : exn) : Prop :=
  (exists k, e = unexpected name k) \/ (exists p, e = missing name p).

(** The [tools] and the registry of each of the nine scripts; the
    registry of [spanish/function_calling_fewshots.py] is that of
    [spanish/function_calling_errors.py]. *)
Definition offers : list (list pyval * list (string * tool)) :=
  [(Tools.extended_errors, ExtendedErrors.tool_mapping);
   (Tools.fewshots, FewShots.tool_mapping);
   (Tools.while_loop, WhileLoop.tool_mapping);
   (Tools.while_loop, Parallel.available_functions);
   (Tools.spanish_errors, Spanish.Errors.tool_mapping);
   (Tools.extended_errors, Spanish.ExtendedErrors.tool_mapping);
   (Tools.spanish_fewshots, Spanish.Errors.tool_mapping);
   (Tools.spanish_parallel, Spanish.Parallel.available_functions);
   (Tools.while_loop, Spanish.WhileLoop.tool_mapping)].

(* ================================================================== *)
(** * Example requests and endpoints *)

(** An endpoint that answers the [n]-th request of a run with the [n]-th
    of [replies], and with a plain answer afterwards: a run has appended
    one assistant message per earlier reply. *)
Definition is_assistant (m : message) : bool :=
  match m with AssistantDict _ _ | AssistantObject _ => true | _ => false end.

Definition plain (text : string) : chat_message := ChatMessage (Some text) [].

Definition scripted (replies : list chat_message) : endpoint :=
  fun ms => Ok (nth (length (filter is_assistant ms)) replies (plain "done")).

Definition asks (tcs : list tool_call) : chat_message := ChatMessage None tcs.

Definition weather_call : tool_call :=
  ToolCall "call_1" "lookup_weather" (q "{'city_name': 'Berkeley'}").
Definition movies_call : tool_call :=
  ToolCall "call_2" "lookup_movies" (q "{'zip_code': '94704'}").
Definition bad_json_call : tool_call :=
  ToolCall "call_3" "lookup_weather" "{bad json".
Definition unknown_tool_call : tool_call :=
  ToolCall "call_4" "lookup_news" "{}".
Definition extra_keyword_call : tool_call :=
  ToolCall "call_5" "lookup_weather" (q "{'town': 'Berkeley'}").
Definition blank_call : tool_call :=
  ToolCall "call_6" "lookup_weather" "   ".
Definition empty_call : tool_call :=
  ToolCall "call_7" "lookup_weather" "".

Definition start (ms : list message) : state := State ms [].


(** The scripts with the guarded dispatch. *)
Definition guarded_scripts : list script :=
  [ExtendedErrors.script; FewShots.script;
   Spanish.ExtendedErrors.script; Spanish.Errors.script].







(** The tool message of the sequential dispatches, which carries the name
    of the request, and that of the thread-pool dispatch, which does not. *)
Definition named_tool_message (entry : tool_call * string) : message :=
  ToolMessage (tc_id (fst entry)) (Some (tc_name (fst entry))) (snd entry).

Definition unnamed_tool_message (entry : tool_call * string) : message :=
  ToolMessage (tc_id (fst entry)) None (snd entry).

(** The state in which the dispatch of the tool calls of a reply starts:
    the assistant message is appended. *)
Definition entered (st : state) (reply : chat_message) : state :=
  State (messages st
           ++ [AssistantDict (content_or (content reply) "") (tool_calls reply)])
        (trace st ++ [ModelCall (messages st); DispatchPass (tool_calls reply)]).

(** [mem] on the registry: the request names a registered function. *)
Definition registered (available_functions : list (string * tool))
           (tc : tool_call) : bool :=
  mem (tc_name tc) available_functions.


(** The request a pending future belongs to. *)
Definition request_of (p : pending) : tool_call := fst (fst p).

(** The tool message that answers a request on its own: the encoded
    result of the function it names, called with the arguments it carries
    (when these decode to an object, the function is registered and
    returns, and its result can be encoded). *)
Definition answer_to (available_functions : list (string * tool))
           (tc : tool_call) : option message :=
  match get available_functions (tc_name tc), json_loads (tc_arguments tc) with
  | Some f, Ok (PDict kw) =>
      match f kw with
      | Ok result =>
          match json_dumps true result with
          | Ok text => Some (unnamed_tool_message (tc, text))
          | Raise _ => None
          end
      | Raise _ => None
      end
  | _, _ => None
  end.

(** A pending future whose task is [tasks[i]] and whose result encodes to
    the content of [m]. *)
Definition task_answers (tasks : list task) (p : pending) (m : message) : Prop :=
  snd p < length tasks
  /\ exists f kw result text,
       nth_error tasks (snd p) = Some (f, kw)
       /\ f kw = Ok result
       /\ json_dumps true result = Ok text
       /\ m = unnamed_tool_message (request_of p, text).


(** The state in which the thread-pool dispatch starts: the message
    object of the reply is appended. *)
Definition entered_parallel (st : state) (reply : chat_message) : state :=
  State (messages st ++ [AssistantObject reply])
        (trace st ++ [ModelCall (messages st); DispatchPass (tool_calls reply)]).

(** The arguments of [search_database] as its signature types them: a
    string and a dict or [None]. *)
Definition price_filter_value (price_filter : option kwargs) : pyval :=
  match price_filter with Some d => PDict d | None => PNone end.

Definition comparison_operators : list string := [">"; "<"; ">="; "<="; "="].

(** A price filter [search_database] accepts: its operator is one of the
    five and its value is a number. *)
Definition valid_price_filter (d : kwargs) : bool :=
  match get d "comparison_operator", get d "value" with
  | Some (PStr op), Some v =>
      (existsb (String.eqb op) comparison_operators && is_number v)%bool
  | _, _ => false
  end.

(** The one product [search_database] finds. *)
Definition products (product : string) : pyval :=
  PList [PDict [("id", PStr "123"); ("name", PStr product);
                ("price", PFloat "19.99")]].




Definition is_dict (v : pyval) : bool :=
  match v with PDict _ => true | _ => false end.

(** The ids of the tool calls an assistant message carries. *)
Definition ids_of (m : message) : list string :=
  match m with
  | AssistantDict _ tcs => map tc_id tcs
  | AssistantObject a => map tc_id (tool_calls a)
  | _ => []
  end.

(** The protocol of the endpoint: every tool message answers a tool call
    of the assistant message before it, with only tool messages between
    the two.  [open] holds the ids that may be answered. *)
Fixpoint answers_open (open : list string) (ms : list message) : bool :=
  match ms with
  | [] => true
  | ToolMessage i _ _ :: r =>
      (existsb (String.eqb i) open && answers_open open r)%bool
  | m :: r => answers_open (ids_of m) r
  end.

Definition well_formed (ms : list message) : bool := answers_open [] ms.

(** Messages made of turns: an assistant message followed by tool
    messages that answer its calls. *)
Inductive turns : list message -> Prop :=
| turns_nil : turns []
| turns_cons a tools rest :
    is_assistant a = true ->
    Forall (fun m => exists i, tool_call_id_of m = Some i /\ In i (ids_of a))
           tools ->
    turns rest ->
    turns (a :: tools ++ rest).

(** [ms'] is [ms] with turns appended. *)
Definition grows (ms ms' : list message) : Prop :=
  exists added, ms' = (ms ++ added)%list /\ turns added.

(** A request the unguarded dispatch gets through: its function is
    registered, its arguments decode to an object, the call returns and
    the result can be encoded. *)
Definition executes (tm : list (string * tool)) (tc : tool_call) : Prop :=
  exists f kw v text,
    get tm (tc_name tc) = Some f
    /\ json_loads (str_or (tc_arguments tc) "{}") = Ok (PDict kw)
    /\ f kw = Ok v
    /\ json_dumps true v = Ok text.

(** A jsonable value is made of [None], booleans, numbers, strings, lists and dicts
    only: what [json.loads] builds and [json.dumps] accepts. *)
Fixpoint jsonable (v : pyval) : bool :=
  match v with
  | PList xs => forallb jsonable xs
  | PDict kvs => forallb (fun kv => jsonable (snd kv)) kvs
  | PObject _ _ _ => false
  | _ => true
  end.

Definition jsonable_kwargs (kw : kwargs) : bool :=
  forallb (fun kv => jsonable (snd kv)) kw.

(** A tool that returns jsonable values when its arguments are jsonable. *)
Definition jsonable_tool (f : tool) : Prop :=
  forall kw v, jsonable_kwargs kw = true -> f kw = Ok v -> jsonable v = true.

(* ================================================================== *)
(** * Properties *)

(** ** The decoder never runs out of fuel *)













(** ** Steps of a script *)




(** The serialization of the guarded dispatch never raises. *)
Lemma tool_content_of_returns (sc : script) (v : pyval) :
  returns (tool_content_of sc v).
Proof.
  unfold tool_content_of, returns.
  destruct (json_dumps (ensure_ascii sc) v) as [s|e]; [now exists s|].
  simpl. eauto.
Qed.

Lemma tool_content_of_str (sc : script) (s : string) :
  tool_content_of sc (PStr s) = Ok (json_string (ensure_ascii sc) s).
Proof. reflexivity. Qed.

(** One guarded tool call whose [tool_result] is [v] appends one message. *)
Lemma process_tool_call_appends (sc : script) (tc : tool_call) st v text :
  tool_result_of sc tc = Ok v ->
  tool_content_of sc v = Ok text ->
  process_tool_call sc tc st =
    (Ok tt, State (messages st ++ [ToolMessage (tc_id tc) (Some (tc_name tc)) text])
                  (trace st)).
Proof.
  intros Hv Ht. unfold process_tool_call, bindM, lift, append.
  now rewrite Hv, Ht.
Qed.




(** ** Malformed arguments (C2) *)




(** ** Unregistered tools (C3) *)

(** C3, as stated, fails: on a reply asking for the unregistered tool
    [lookup_news] the thread-pool script appends no tool message, and the
    continuous loop calls [None] and ends with the [TypeError]. *)
Lemma unregistered_tool_skipped_or_fatal :
  get Parallel.available_functions (tc_name unknown_tool_call) = None
  /\ (exists st,
        Parallel.run [] (scripted [asks [unknown_tool_call]])
                     (start Parallel.messages) = Some (Ok tt, st)
        /\ tool_messages (messages st) = [])
  /\ (exists st,
        WhileLoop.run 3 (scripted [asks [unknown_tool_call]])
                      (start WhileLoop.messages)
          = (Raise (Exn TypeError "'NoneType' object is not callable"), st)
        /\ tool_messages (messages st) = []).
Proof.
  split; [reflexivity|].
  split; eexists; (split; [vm_compute; reflexivity | reflexivity]).
Qed.

(** C3, amended: in the scripts with the guarded dispatch, a request that
    names a tool absent from [tool_mapping] does not raise, whatever its
    arguments: one tool message is appended, with the id and the name of
    the request and the text that no implementation is registered,
    JSON-encoded, as its content.  In the thread-pool script such a
    request, once its arguments are decoded, is skipped: nothing is
    submitted for it. *)
Theorem unregistered_tool_yields_error_message :
  (forall (sc : script) (tc : tool_call) (st : state),
      get (tool_mapping sc) (tc_name tc) = None ->
      tool_result_of sc tc = Ok (PStr (no_implementation sc (tc_name tc)))
      /\ process_tool_call sc tc st =
           (Ok tt,
            State (messages st
                     ++ [ToolMessage (tc_id tc) (Some (tc_name tc))
                           (json_string (ensure_ascii sc)
                              (no_implementation sc (tc_name tc)))])
                  (trace st)))
  /\ (forall available_functions tc rest tasks futures,
         get available_functions (tc_name tc) = None ->
         returns (json_loads (tc_arguments tc)) ->
         submit_all available_functions (tc :: rest) tasks futures
         = submit_all available_functions rest tasks futures).
Proof.
  split.
  - intros sc tc st Hget.
    assert (Hres : tool_result_of sc tc
                   = Ok (PStr (no_implementation sc (tc_name tc)))).
    { unfold tool_result_of. now rewrite Hget. }
    split; [exact Hres|].
    apply process_tool_call_appends
      with (v := PStr (no_implementation sc (tc_name tc)));
      [exact Hres | apply tool_content_of_str].
  - intros af tc rest tasks futures Hget [v Hv].
    simpl. rewrite Hv. simpl. now rewrite Hget.
Qed.

Lemma unregistered_tool_yields_error_message_witness :
  process_tool_call ExtendedErrors.script unknown_tool_call
                    (start ExtendedErrors.messages)
  = (Ok tt,
     State (ExtendedErrors.messages
              ++ [ToolMessage "call_4" (Some "lookup_news")
                    (json_string true
                       "ERROR: No implementation registered for tool 'lookup_news'")])
           [])
  /\ submit_all Parallel.available_functions [unknown_tool_call] [] []
     = Ok ([], []).
Proof.
  split.
  - apply (proj1 unregistered_tool_yields_error_message
             ExtendedErrors.script unknown_tool_call
             (start ExtendedErrors.messages)).
    reflexivity.
  - apply (proj2 unregistered_tool_yields_error_message
             Parallel.available_functions unknown_tool_call [] [] []).
    + reflexivity.
    + exists (PDict []). reflexivity.
Defined.

(** ** Tools that raise (C4) *)

(** C4, as stated, fails: [lookup_weather] called with the keyword [town]
    raises a [TypeError]; the continuous loop lets it through, and the
    thread-pool script raises it again from [future.result()]. *)
Lemma tool_exception_aborts_unguarded_runs :
  (exists st,
      WhileLoop.run 3 (scripted [asks [extra_keyword_call]])
                    (start WhileLoop.messages)
        = (Raise (unexpected "lookup_weather" "town"), st)
      /\ tool_messages (messages st) = [])
  /\ (exists st,
        Parallel.run [0] (scripted [asks [extra_keyword_call]])
                     (start Parallel.messages)
          = Some (Raise (unexpected "lookup_weather" "town"), st)
        /\ tool_messages (messages st) = []).
Proof.
  split; eexists; (split; [vm_compute; reflexivity | reflexivity]).
Qed.

(** C4, amended: in the scripts with the guarded dispatch, when the call
    of a registered tool on the decoded arguments raises (the tool body,
    or the binding of the keyword arguments), nothing propagates: one tool
    message is appended, with the id and the name of the request, whose
    content is the JSON-encoded error text; in each of these scripts that
    text ends with the name of the tool, a colon and the message of the
    exception. *)
Theorem tool_exception_yields_error_message :
  (forall (sc : script) (tc : tool_call) (target : tool) (parsed_args : pyval)
          (e : exn) (st : state),
      get (tool_mapping sc) (tc_name tc) = Some target ->
      parse_arguments (str_or (tc_arguments tc) "{}") = Ok parsed_args ->
      call (tc_name tc) (Some target) parsed_args = Raise e ->
      tool_result_of sc tc
        = Ok (PStr (execution_error sc (tc_name tc) (exn_msg e)))
      /\ process_tool_call sc tc st =
           (Ok tt,
            State (messages st
                     ++ [ToolMessage (tc_id tc) (Some (tc_name tc))
                           (json_string (ensure_ascii sc)
                              (execution_error sc (tc_name tc) (exn_msg e)))])
                  (trace st)))
  /\ (forall sc, In sc guarded_scripts ->
        exists prefix, forall fn_name msg,
          execution_error sc fn_name msg = prefix ++ fn_name ++ ": " ++ msg).
Proof.
  split.
  - intros sc tc target parsed_args e st Hget Hparse Hcall.
    assert (Hres : tool_result_of sc tc
                   = Ok (PStr (execution_error sc (tc_name tc) (exn_msg e)))).
    { unfold tool_result_of. now rewrite Hget, Hparse, Hcall. }
    split; [exact Hres|].
    apply process_tool_call_appends
      with (v := PStr (execution_error sc (tc_name tc) (exn_msg e)));
      [exact Hres | apply tool_content_of_str].
  - intros sc Hin. simpl in Hin.
    destruct Hin as [<-|[<-|[<-|[<-|[]]]]]; eexists; intros; reflexivity.
Qed.

Lemma tool_exception_yields_error_message_witness :
  process_tool_call ExtendedErrors.script extra_keyword_call
                    (start ExtendedErrors.messages)
  = (Ok tt,
     State (ExtendedErrors.messages
              ++ [ToolMessage "call_5" (Some "lookup_weather")
                    (json_string true
                       ("Tool execution error in lookup_weather: "
                          ++ "lookup_weather() got an unexpected keyword "
                          ++ "argument 'town'"))])
           [])
  /\ tool_result_of FewShots.script (ToolCall "call_8" "search_database" "{}")
     = Ok (PStr ("Tool execution error in search_database: "
                   ++ "search_database() missing 1 required positional "
                   ++ "argument: 'search_query'"))
  /\ exists prefix, forall fn_name msg,
       execution_error FewShots.script fn_name msg
       = prefix ++ fn_name ++ ": " ++ msg.
Proof.
  split; [|split].
  - apply (proj1 tool_exception_yields_error_message
             ExtendedErrors.script extra_keyword_call
             ExtendedErrors.lookup_weather
             (PDict [("town", PStr "Berkeley")])
             (unexpected "lookup_weather" "town")
             (start ExtendedErrors.messages)); reflexivity.
  - apply (proj1 tool_exception_yields_error_message
             FewShots.script (ToolCall "call_8" "search_database" "{}")
             FewShots.search_database (PDict [])
             (missing "search_database" "search_query")
             (start FewShots.messages)); reflexivity.
  - apply (proj2 tool_exception_yields_error_message FewShots.script).
    simpl. auto.
Defined.

(** ** The serialization fallback (C7) *)




(** ** Blank arguments (C8) *)

(** C8, as stated, fails: the continuous loop replaces only the empty text
    by [{}], and [json.loads] rejects a text of three spaces; the
    thread-pool script passes the empty text itself to [json.loads]. *)
Lemma blank_arguments_abort_unguarded_runs :
  strip (tc_arguments blank_call) = ""
  /\ (exists st,
        WhileLoop.run 3 (scripted [asks [blank_call]])
                      (start WhileLoop.messages)
          = (Raise (decode_error "Expecting value"), st)
        /\ tool_messages (messages st) = [])
  /\ (exists st,
        Parallel.run [0] (scripted [asks [empty_call]])
                     (start Parallel.messages)
          = Some (Raise (decode_error "Expecting value"), st)
        /\ tool_messages (messages st) = []).
Proof.
  split; [reflexivity|].
  split; eexists; (split; [vm_compute; reflexivity | reflexivity]).
Qed.

(** C8, amended: in the scripts with the guarded dispatch, every
    arguments text that is empty or consists only of whitespace decodes to
    the empty parameter set, with no error, and a registered tool is
    called with no argument; in the continuous loop the empty text decodes
    to the empty parameter set as well. *)
Theorem blank_arguments_decode_to_empty :
  (forall raw_arguments : string,
      strip raw_arguments = "" ->
      parse_arguments (str_or raw_arguments "{}") = Ok (PDict []))
  /\ (forall (sc : script) (tc : tool_call) (target : tool) (v : pyval),
         strip (tc_arguments tc) = "" ->
         get (tool_mapping sc) (tc_name tc) = Some target ->
         target [] = Ok v ->
         tool_result_of sc tc = Ok v)
  /\ json_loads (str_or "" "{}") = Ok (PDict []).
Proof.
  assert (H : forall raw, strip raw = "" ->
                parse_arguments (str_or raw "{}") = Ok (PDict [])).
  { intros raw Hblank. unfold str_or.
    destruct (String.eqb raw "") eqn:E; [reflexivity|].
    unfold parse_arguments. now rewrite Hblank. }
  split; [exact H|]. split; [|reflexivity].
  intros sc tc target v Hblank Hget Hcall.
  unfold tool_result_of. rewrite Hget, (H _ Hblank). simpl. now rewrite Hcall.
Qed.

Lemma blank_arguments_decode_to_empty_witness :
  parse_arguments (str_or "   " "{}") = Ok (PDict [])
  /\ tool_result_of ExtendedErrors.script blank_call
     = ExtendedErrors.lookup_weather [].
Proof.
  split.
  - apply (proj1 blank_arguments_decode_to_empty "   "). reflexivity.
  - apply (proj1 (proj2 blank_arguments_decode_to_empty)
             ExtendedErrors.script blank_call ExtendedErrors.lookup_weather);
      reflexivity.
Defined.

(** ** The location of the lookups (C10) *)







(** ** Sequential dispatch: what a pass appends *)

Lemma process_tool_call_inv (sc : script) (tc : tool_call) st r st' :
  process_tool_call sc tc st = (r, st') ->
  trace st' = trace st
  /\ ((exists e, r = Raise e /\ st' = st)
      \/ (exists text, r = Ok tt
                       /\ messages st' = (messages st ++ [named_tool_message (tc, text)])%list)).
Proof.
  unfold process_tool_call, bindM, lift, append.
  destruct (tool_result_of sc tc) as [v|e].
  - destruct (tool_content_of_returns sc v) as [text Ht]. rewrite Ht.
    intros H. inversion H; subst; clear H. simpl. split; [reflexivity|].
    right. now exists text.
  - intros H. inversion H; subst. split; [reflexivity|]. left. now exists e.
Qed.

Lemma execute_tool_call_inv (tm : list (string * tool)) (tc : tool_call)
      st r st' :
  execute_tool_call tm tc st = (r, st') ->
  trace st' = trace st
  /\ ((exists e, r = Raise e /\ st' = st)
      \/ (exists text, r = Ok tt
                       /\ messages st' = (messages st ++ [named_tool_message (tc, text)])%list)).
Proof.
  unfold execute_tool_call, bindM, lift, append.
  destruct (json_loads _) as [args|e].
  2:{ intros H; inversion H; subst. split; [reflexivity|]. left. now exists e. }
  destruct (call _ _ args) as [v|e].
  2:{ intros H; inversion H; subst. split; [reflexivity|]. left. now exists e. }
  destruct (json_dumps true v) as [text|e].
  2:{ intros H; inversion H; subst. split; [reflexivity|]. left. now exists e. }
  intros H; inversion H; subst; clear H. simpl. split; [reflexivity|].
  right. now exists text.
Qed.

(** A pass of a sequential dispatch leaves the trace as it is and appends
    one named tool message per request it gets through, in the order of
    the requests: all of them when it completes. *)
Lemma for_each_dispatch_inv (body : tool_call -> M unit) :
  (forall tc st r st',
      body tc st = (r, st') ->
      trace st' = trace st
      /\ ((exists e, r = Raise e /\ st' = st)
          \/ (exists text, r = Ok tt
                /\ messages st' = (messages st ++ [named_tool_message (tc, text)])%list))) ->
  forall tcs st r st',
    for_each body tcs st = (r, st') ->
    trace st' = trace st
    /\ exists texts,
         messages st' = (messages st ++ map named_tool_message (combine tcs texts))%list
         /\ length texts <= length tcs
         /\ (r = Ok tt -> length texts = length tcs).
Proof.
  intros Hbody tcs. induction tcs as [|tc tcs IH]; intros st r st' H.
  - inversion H; subst. split; [reflexivity|]. exists [].
    cbn. rewrite app_nil_r. auto.
  - cbn [for_each] in H. unfold bindM in H.
    destruct (body tc st) as [[[]|e] st1] eqn:E.
    + destruct (Hbody _ _ _ _ E) as [Ht [[e [He _]]|[text [_ Hm]]]];
        [discriminate|].
      destruct (IH _ _ _ H) as [Ht' [texts [Hms [Hle Hok]]]].
      split; [congruence|].
      exists (text :: texts). cbn [combine map length].
      rewrite Hms, Hm, <- app_assoc. repeat split; [lia|].
      intros Hr. now rewrite (Hok Hr).
    + inversion H; subst.
      destruct (Hbody _ _ _ _ E) as [Ht [[e' [_ Hst]]|[text [Hr _]]]];
        [|discriminate].
      subst st'. split; [reflexivity|]. exists [].
      cbn. rewrite app_nil_r. repeat split; [lia | discriminate].
Qed.



(** ** One dispatch pass per run of the single round trip (C9) *)


(** ** The exit of the continuous loop (C5) *)

Lemma iteration_plain (tm : list (string * tool)) (ep : endpoint) st reply :
  ep (messages st) = Ok reply ->
  tool_calls reply = [] ->
  iteration tm ep st
  = (Ok true,
     State (messages st)
           (trace st ++ [ModelCall (messages st); Answer (content reply)])).
Proof.
  intros Hreply Hplain. unfold iteration, bindM, create.
  rewrite Hreply, Hplain. unfold emit, ret. cbn [messages trace].
  now rewrite <- app_assoc.
Qed.

Lemma iteration_tools (tm : list (string * tool)) (ep : endpoint) st reply :
  ep (messages st) = Ok reply ->
  tool_calls reply <> [] ->
  iteration tm ep st
  = match for_each (execute_tool_call tm) (tool_calls reply) (entered st reply)
    with
    | (Ok _, st1) => (Ok false, st1)
    | (Raise e, st1) => (Raise e, st1)
    end.
Proof.
  intros Hreply Hcalls. unfold iteration, entered.
  set (pass := for_each (execute_tool_call tm)).
  unfold bindM, create. rewrite Hreply.
  destruct (tool_calls reply) as [|tc tcs]; [now elim Hcalls|].
  unfold append, emit, ret. cbn [messages trace].
  rewrite <- app_assoc. cbn [app].
  now destruct (pass (tc :: tcs) _) as [[[]|e] st1].
Qed.

Lemma iteration_raise (tm : list (string * tool)) (ep : endpoint) st e :
  ep (messages st) = Raise e ->
  iteration tm ep st
  = (Raise e, State (messages st) (trace st ++ [ModelCall (messages st)])).
Proof.
  intros Hreply. unfold iteration, bindM, create. now rewrite Hreply.
Qed.


Lemma while_loop_step (tm : list (string * tool)) (ep : endpoint) fuel st st1 :
  iteration tm ep st = (Ok false, st1) ->
  while_loop (S fuel) tm ep st = while_loop fuel tm ep st1.
Proof. intros H. cbn [while_loop]. unfold bindM. now rewrite H. Qed.

Lemma while_loop_break (tm : list (string * tool)) (ep : endpoint) fuel st st1 :
  iteration tm ep st = (Ok true, st1) ->
  while_loop (S fuel) tm ep st = (Ok Break, st1).
Proof. intros H. cbn [while_loop]. unfold bindM. now rewrite H. Qed.

Lemma while_loop_raise (tm : list (string * tool)) (ep : endpoint) fuel st e st1 :
  iteration tm ep st = (Raise e, st1) ->
  while_loop (S fuel) tm ep st = (Raise e, st1).
Proof. intros H. cbn [while_loop]. unfold bindM. now rewrite H. Qed.





(** ** The thread-pool dispatch *)

(** Once its task is on the schedule, a future has the result of its own
    task, wherever on the schedule the task is. *)
Lemma future_result_run_pool (tasks : list task) (schedule : list nat)
      (i : nat) (f : tool) (kw : kwargs) :
  In i schedule ->
  nth_error tasks i = Some (f, kw) ->
  future_result (run_pool tasks schedule) i = Some (f kw).
Proof.
  intros Hin Hnth. induction schedule as [|j s IH]; [easy|].
  cbn [run_pool flat_map].
  destruct (Nat.eq_dec j i) as [->|Hne].
  - rewrite Hnth. cbn. now rewrite Nat.eqb_refl.
  - destruct Hin as [->|Hin]; [easy|].
    destruct (nth_error tasks j) as [[f' kw']|]; cbn.
    + apply Nat.eqb_neq in Hne. rewrite Hne. now apply IH.
    + now apply IH.
Qed.

(** The submit loop keeps the order of the requests and leaves out those
    that name no registered function. *)
Lemma submit_all_inv (af : list (string * tool)) :
  forall tcs tasks futures tasks' futures',
    submit_all af tcs tasks futures = Ok (tasks', futures') ->
    exists new,
      futures' = (futures ++ new)%list
      /\ map request_of new = filter (registered af) tcs.
Proof.
  induction tcs as [|tc tcs IH]; intros tasks futures tasks' futures' H.
  - inversion H; subst. exists []. now rewrite app_nil_r.
  - cbn [submit_all] in H. unfold bind in H.
    destruct (json_loads (tc_arguments tc)) as [args|e]; [|discriminate].
    cbn [filter]. unfold registered at 1, mem.
    destruct (get af (tc_name tc)) as [f|].
    + destruct args; try discriminate.
      destruct (IH _ _ _ _ H) as [new [-> Hnew]].
      eexists. rewrite <- app_assoc. split; [reflexivity|].
      cbn. now rewrite Hnew.
    + apply (IH _ _ _ _ H).
Qed.

(** The collection loop appends one unnamed tool message per future it
    gets through, in the order of the futures. *)
Lemma collect_inv (completed : list (nat * res pyval)) :
  forall futures st r st',
    collect completed futures st = Some (r, st') ->
    trace st' = trace st
    /\ exists texts,
         messages st'
         = (messages st
              ++ map unnamed_tool_message
                     (combine (map request_of futures) texts))%list
         /\ length texts <= length futures
         /\ (r = Ok tt -> length texts = length futures).
Proof.
  induction futures as [|[[tc fn] fut] futures IH]; intros st r st' H.
  - inversion H; subst. split; [reflexivity|]. exists [].
    cbn. rewrite app_nil_r. auto.
  - cbn [collect] in H.
    destruct (future_result completed fut) as [outcome|]; [|discriminate].
    unfold bindM, lift, append in H.
    destruct outcome as [result|e].
    2:{ inversion H; subst. split; [reflexivity|]. exists [].
        cbn. rewrite app_nil_r. repeat split; [lia | discriminate]. }
    destruct (json_dumps true result) as [text|e].
    2:{ inversion H; subst. split; [reflexivity|]. exists [].
        cbn. rewrite app_nil_r. repeat split; [lia | discriminate]. }
    destruct (IH _ _ _ H) as [Ht [texts [Hms [Hle Hok]]]].
    cbn [messages trace] in Ht, Hms. split; [exact Ht|].
    exists (text :: texts). cbn [map combine length].
    rewrite Hms, <- app_assoc. repeat split; [lia|].
    intros Hr. now rewrite (Hok Hr).
Qed.

Lemma collect_answers (completed : list (nat * res pyval)) :
  forall futures answers st,
    Forall2 (fun p m =>
               exists result text,
                 future_result completed (snd p) = Some (Ok result)
                 /\ json_dumps true result = Ok text
                 /\ m = unnamed_tool_message (request_of p, text))
            futures answers ->
    collect completed futures st
    = Some (Ok tt, State (messages st ++ answers) (trace st)).
Proof.
  intros futures answers st H. revert st.
  induction H as [|[[tc fn] fut] m futures answers
                   [result [text [Hres [Htext ->]]]] _ IH]; intros st.
  - cbn. rewrite app_nil_r. now destruct st.
  - cbn [collect]. cbn [snd] in Hres. rewrite Hres.
    unfold bindM, lift, append. rewrite Htext.
    rewrite IH. cbn [messages trace]. now rewrite <- app_assoc.
Qed.

Lemma submit_all_answers (af : list (string * tool)) :
  forall tcs tasks futures answers,
    (forall tc, In tc tcs -> returns (json_loads (tc_arguments tc))) ->
    map (answer_to af) (filter (registered af) tcs) = map Some answers ->
    exists new_tasks new_futures,
      submit_all af tcs tasks futures
      = Ok ((tasks ++ new_tasks)%list, (futures ++ new_futures)%list)
      /\ length new_tasks = length answers
      /\ Forall2 (task_answers (tasks ++ new_tasks)) new_futures answers.
Proof.
  induction tcs as [|tc tcs IH]; intros tasks futures answers Hdec Hans.
  - destruct answers; [|discriminate]. exists [], [].
    cbn. rewrite !app_nil_r. auto.
  - cbn [submit_all]. unfold bind.
    destruct (Hdec tc (or_introl eq_refl)) as [args Hargs].
    assert (Hdec' : forall tc', In tc' tcs ->
                      returns (json_loads (tc_arguments tc')))
      by (intros; apply Hdec; now right).
    cbn [filter] in Hans. unfold registered at 1, mem in Hans.
    rewrite Hargs.
    destruct (get af (tc_name tc)) as [f|] eqn:Hget.
    + destruct answers as [|m answers]; [discriminate|].
      cbn [map] in Hans. injection Hans as Hm Hans.
      unfold answer_to in Hm. rewrite Hget, Hargs in Hm.
      destruct args as [| | | | | |kw|]; try discriminate.
      destruct (f kw) as [result|] eqn:Hcall; [|discriminate].
      destruct (json_dumps true result) as [text|] eqn:Htext; [|discriminate].
      injection Hm as <-.
      destruct (IH (tasks ++ [(f, kw)])%list
                   (futures ++ [(tc, tc_name tc, length tasks)])%list
                   answers Hdec' Hans)
        as [new_tasks [new_futures [Hsub [Hlen Hall]]]].
      exists ((f, kw) :: new_tasks), ((tc, tc_name tc, length tasks) :: new_futures).
      rewrite <- !app_assoc in Hsub. cbn [app] in Hsub.
      rewrite <- app_assoc in Hall. cbn [app] in Hall.
      split; [exact Hsub|]. split; [cbn; congruence|].
      constructor; [|exact Hall].
      unfold task_answers. cbn [snd]. split.
      * rewrite length_app. cbn. lia.
      * exists f, kw, result, text.
        rewrite nth_error_app2, Nat.sub_diag by lia. auto.
    + apply IH; assumption.
Qed.

Lemma answers_ids (af : list (string * tool)) :
  forall tcs answers,
    map (answer_to af) tcs = map Some answers ->
    map tool_call_id_of answers = map (fun tc => Some (tc_id tc)) tcs
    /\ map name_of answers = map (fun _ => None) tcs.
Proof.
  induction tcs as [|tc tcs IH]; intros [|m answers] H; try discriminate;
    [split; reflexivity|].
  cbn [map] in H. injection H as Hm H.
  destruct (IH _ H) as [Hids Hnames]. cbn [map]. rewrite Hids, Hnames.
  unfold answer_to in Hm.
  destruct (get af (tc_name tc)); [|discriminate].
  destruct (json_loads (tc_arguments tc)) as [[]|]; try discriminate.
  destruct (t kvs); [|discriminate].
  destruct (json_dumps true a); [|discriminate].
  injection Hm as <-. split; reflexivity.
Qed.

Lemma filter_all {A} (p : A -> bool) (l : list A) :
  forallb p l = true -> filter p l = l.
Proof.
  induction l as [|x l IH]; [reflexivity|]. cbn.
  intros H. apply andb_true_iff in H as [Hx Hl]. rewrite Hx. f_equal. auto.
Qed.

(** ** One dispatch pass per run of the single round trip, continued *)


Lemma parallel_unfold (af : list (string * tool)) schedule ep st reply :
  ep (messages st) = Ok reply ->
  tool_calls reply <> [] ->
  parallel af schedule ep st
  = match dispatch_parallel af schedule (tool_calls reply)
            (entered_parallel st reply) with
    | None => None
    | Some (Raise e, st2) => Some (Raise e, st2)
    | Some (Ok _, st2) =>
        Some ((final_response <~ create ep ;;
               emit (Answer (content final_response))) st2)
    end.
Proof.
  intros Hreply Hcalls. unfold parallel, create, entered_parallel.
  rewrite Hreply.
  destruct (tool_calls reply) as [|tc tcs]; [now elim Hcalls|].
  unfold bindM, append, emit. cbn [snd messages trace].
  rewrite <- app_assoc. reflexivity.
Qed.



(** ** Pairing by id in the thread-pool dispatch (C1) *)

(** C1, as stated, fails: of the two requests of the reply the second
    names the unregistered [lookup_news]; the dispatch appends one tool
    message, not two. *)
Lemma parallel_skips_unregistered_request :
  exists st,
    Parallel.run [0] (scripted [asks [weather_call; unknown_tool_call]])
                 (start Parallel.messages) = Some (Ok tt, st)
    /\ length [weather_call; unknown_tool_call] = 2
    /\ map tool_call_id_of (tool_messages (messages st)) = [Some "call_1"].
Proof. eexists. split; [vm_compute; reflexivity|]. split; reflexivity. Qed.

(** C1, amended: take a reply whose arguments texts all decode and whose
    requests naming a registered function can each be answered (the
    arguments are an object, the function returns, the result encodes).
    Then for every completion order of the pool the dispatch appends
    exactly the answers of those requests, in the order of the requests:
    one tool message per request naming a registered function, N when all
    N do, each with the id of the request it answers.  Requests naming an
    unregistered function are left unanswered. *)
Theorem parallel_dispatch_pairs_by_id :
  forall (available_functions : list (string * tool)) (tcs : list tool_call)
         (schedule : list nat) (st : state) (answers : list message),
    (forall tc, In tc tcs -> returns (json_loads (tc_arguments tc))) ->
    map (answer_to available_functions)
        (filter (registered available_functions) tcs) = map Some answers ->
    Permutation schedule (seq 0 (length answers)) ->
    dispatch_parallel available_functions schedule tcs st
    = Some (Ok tt, State (messages st ++ answers) (trace st))
    /\ length answers = length (filter (registered available_functions) tcs)
    /\ map tool_call_id_of answers
       = map (fun tc => Some (tc_id tc))
             (filter (registered available_functions) tcs)
    /\ (forallb (registered available_functions) tcs = true ->
        length answers = length tcs
        /\ map tool_call_id_of answers = map (fun tc => Some (tc_id tc)) tcs).
Proof.
  intros af tcs schedule st answers Hdec Hans Hperm.
  assert (Hlen : length answers = length (filter (registered af) tcs)).
  { apply (f_equal (@length _)) in Hans. now rewrite !length_map in Hans. }
  destruct (answers_ids af _ _ Hans) as [Hids _].
  split; [|split; [exact Hlen|split; [exact Hids|]]].
  - destruct (submit_all_answers af tcs [] [] answers Hdec Hans)
      as [tasks [futures [Hsub [Hlt Hall]]]].
    cbn [app] in Hsub, Hall.
    unfold dispatch_parallel. rewrite Hsub.
    apply collect_answers.
    eapply Forall2_impl; [|exact Hall].
    intros p m [Hlt' [f [kw [result [text [Hnth [Hcall [Htext ->]]]]]]]].
    exists result, text. repeat split; [|exact Htext].
    rewrite <- Hcall. apply future_result_run_pool; [|exact Hnth].
    apply (Permutation_in _ (Permutation_sym Hperm)).
    apply in_seq. lia.
  - intros Hall. rewrite (filter_all _ _ Hall) in Hlen, Hids. now split.
Qed.

Lemma parallel_dispatch_pairs_by_id_witness :
  exists weather movies,
    dispatch_parallel Parallel.available_functions [1; 0]
                      [weather_call; movies_call] (start Parallel.messages)
    = Some (Ok tt,
            State (Parallel.messages
                     ++ [ToolMessage "call_1" None weather;
                         ToolMessage "call_2" None movies])
                  []).
Proof.
  eexists. eexists.
  apply (parallel_dispatch_pairs_by_id Parallel.available_functions
           [weather_call; movies_call] [1; 0] (start Parallel.messages)).
  - intros tc [<-|[<-|[]]]; eexists; reflexivity.
  - vm_compute. reflexivity.
  - apply perm_swap.
Defined.

(** ** The id and the name of a tool message (C6) *)

(** C6, as stated, fails: the tool messages of the thread-pool script have
    the keys [role], [tool_call_id] and [content], and no [name]. *)
Lemma parallel_tool_messages_have_no_name :
  exists st,
    Parallel.run [1; 0] (scripted [asks [weather_call; movies_call]])
                 (start Parallel.messages) = Some (Ok tt, st)
    /\ map tool_call_id_of (tool_messages (messages st))
       = [Some "call_1"; Some "call_2"]
    /\ map name_of (tool_messages (messages st)) = [None; None].
Proof. eexists. split; [vm_compute; reflexivity|]. split; reflexivity. Qed.

(** C6, amended: every tool message a dispatch appends carries the id of
    the request it belongs to as [tool_call_id]; in the sequential
    dispatches (guarded and unguarded) it carries the name of that request
    as well, and in the thread-pool dispatch it carries no name.  A pass
    appends these messages in the order of the requests (in the thread
    pool: of the requests naming a registered function), one per request
    it gets through, all of them when it completes. *)
Theorem tool_messages_echo_request_id :
  (forall tc text,
      tool_call_id_of (named_tool_message (tc, text)) = Some (tc_id tc)
      /\ name_of (named_tool_message (tc, text)) = Some (tc_name tc)
      /\ tool_call_id_of (unnamed_tool_message (tc, text)) = Some (tc_id tc)
      /\ name_of (unnamed_tool_message (tc, text)) = None)
  /\ (forall (sc : script) tcs st r st',
         for_each (process_tool_call sc) tcs st = (r, st') ->
         exists texts,
           messages st'
           = (messages st ++ map named_tool_message (combine tcs texts))%list
           /\ length texts <= length tcs
           /\ (r = Ok tt -> length texts = length tcs))
  /\ (forall (tm : list (string * tool)) tcs st r st',
         for_each (execute_tool_call tm) tcs st = (r, st') ->
         exists texts,
           messages st'
           = (messages st ++ map named_tool_message (combine tcs texts))%list
           /\ length texts <= length tcs
           /\ (r = Ok tt -> length texts = length tcs))
  /\ (forall (af : list (string * tool)) schedule tcs st st',
         dispatch_parallel af schedule tcs st = Some (Ok tt, st') ->
         exists texts,
           messages st'
           = (messages st
                ++ map unnamed_tool_message
                       (combine (filter (registered af) tcs) texts))%list
           /\ length texts = length (filter (registered af) tcs)).
Proof.
  split; [intros; repeat split|]. split; [|split].
  - intros sc tcs st r st' H.
    now destruct (for_each_dispatch_inv _ (process_tool_call_inv sc) _ _ _ _ H).
  - intros tm tcs st r st' H.
    now destruct (for_each_dispatch_inv _ (execute_tool_call_inv tm) _ _ _ _ H).
  - intros af schedule tcs st st' H. unfold dispatch_parallel in H.
    destruct (submit_all af tcs [] []) as [[tasks futures]|e] eqn:Hsub;
      [|discriminate].
    destruct (submit_all_inv _ _ _ _ _ _ Hsub) as [new [-> Hnew]].
    cbn [app] in H.
    destruct (collect_inv _ _ _ _ _ H) as [_ [texts [Hms [_ Hlen]]]].
    exists texts. rewrite Hnew in Hms. split; [exact Hms|].
    rewrite (Hlen eq_refl), <- Hnew. now rewrite length_map.
Qed.

Lemma tool_messages_echo_request_id_witness :
  (exists texts,
      messages (snd (for_each (process_tool_call ExtendedErrors.script)
                       [weather_call; bad_json_call]
                       (start ExtendedErrors.messages)))
      = (ExtendedErrors.messages
           ++ map named_tool_message
                  (combine [weather_call; bad_json_call] texts))%list
      /\ length texts <= 2
      /\ (Ok tt = Ok tt -> length texts = 2))
  /\ (exists texts,
         messages (snd (for_each (execute_tool_call WhileLoop.tool_mapping)
                          [weather_call; bad_json_call]
                          (start WhileLoop.messages)))
         = (WhileLoop.messages
              ++ map named_tool_message
                     (combine [weather_call; bad_json_call] texts))%list
         /\ length texts <= 2
         /\ (Raise (decode_error
                      "Expecting property name enclosed in double quotes")
             = Ok tt -> length texts = 2))
  /\ (exists st',
         dispatch_parallel Parallel.available_functions [1; 0]
                           [weather_call; movies_call; unknown_tool_call]
                           (start Parallel.messages) = Some (Ok tt, st')
         /\ exists texts,
              messages st'
              = (Parallel.messages
                   ++ map unnamed_tool_message
                          (combine
                             (filter (registered Parallel.available_functions)
                                     [weather_call; movies_call;
                                      unknown_tool_call])
                             texts))%list
              /\ length texts
                 = length (filter (registered Parallel.available_functions)
                                  [weather_call; movies_call;
                                   unknown_tool_call])).
Proof.
  split; [|split].
  - apply (proj1 (proj2 tool_messages_echo_request_id) ExtendedErrors.script
             [weather_call; bad_json_call] (start ExtendedErrors.messages)
             (Ok tt)).
    vm_compute. reflexivity.
  - apply (proj1 (proj2 (proj2 tool_messages_echo_request_id))
             WhileLoop.tool_mapping [weather_call; bad_json_call]
             (start WhileLoop.messages)
             (Raise (decode_error
                       "Expecting property name enclosed in double quotes"))).
    vm_compute. reflexivity.
  - eexists. split; [vm_compute; reflexivity|].
    apply (proj2 (proj2 (proj2 tool_messages_echo_request_id))
             Parallel.available_functions [1; 0]
             [weather_call; movies_call; unknown_tool_call]
             (start Parallel.messages)).
    vm_compute. reflexivity.
Defined.

(* ================================================================== *)
(** * Further properties *)

(** ** The client setup *)

Lemma environ_item_mem (env : environ) (key : string) :
  (mem key env = true -> exists v, get env key = Some v /\ environ_item env key = Ok v)
  /\ (mem key env = false ->
      environ_item env key = Raise (Exn KeyError (repr_str key))).
Proof.
  unfold mem, environ_item. destruct (get env key) as [v|]; split;
    intros H; try discriminate; eauto.
Qed.

(** The setup succeeds exactly when the environment defines every variable
    the selected host requires; otherwise it ends with the [KeyError] of
    the first of them that is missing, in the order it reads them. *)
Theorem setup_needs_required_variables :
  forall env : environ,
    let host := getenv env "API_HOST" "github" in
    (returns (setup env)
     <-> forall k, In k (required_variables host) -> mem k env = true)
    /\ (forall e, setup env = Raise e ->
          exists k, first_missing env (required_variables host) = Some k
                    /\ e = Exn KeyError (repr_str k)).
Proof.
  intros env host. unfold setup, required_variables. fold host.
  assert (Hmem : forall k, mem k env = true <-> exists v, get env k = Some v).
  { intros k. unfold mem. destruct (get env k) as [v|]; split;
      try discriminate; eauto. intros [v Hv]. discriminate. }
  destruct (String.eqb host "azure");
    [|destruct (String.eqb host "ollama");
      [|destruct (String.eqb host "github")]];
    cbn [first_missing In]; unfold environ_item, mem;
    repeat match goal with
           | |- context [get env ?k] => destruct (get env k) eqn:?
           end;
    cbn [bind];
    (split;
     [split;
      [intros [a Ha]; try discriminate Ha;
       intros k Hk; apply Hmem;
       repeat (destruct Hk as [<-|Hk]; [eauto|]); destruct Hk
      |intros Hall; try (eexists; reflexivity);
       exfalso;
       match goal with
       | H : get env ?k = None |- _ =>
           destruct (proj1 (Hmem k) (Hall k ltac:(cbn; auto))) as [v Hv];
           congruence
       end]
     |intros e He; try discriminate He; injection He as <-;
      eexists; split; reflexivity]).
Qed.

Lemma setup_needs_required_variables_witness :
  returns (setup [("API_HOST", "ollama");
                  ("OLLAMA_ENDPOINT", "http://localhost:11434/v1");
                  ("OLLAMA_MODEL", "llama3.1")])
  /\ exists k,
       first_missing [("API_HOST", "azure");
                      ("AZURE_OPENAI_CHAT_DEPLOYMENT", "gpt-4o")]
                     (required_variables "azure") = Some k
       /\ Exn KeyError "'AZURE_OPENAI_ENDPOINT'" = Exn KeyError (repr_str k).
Proof.
  split.
  - apply (proj1 (setup_needs_required_variables
                    [("API_HOST", "ollama");
                     ("OLLAMA_ENDPOINT", "http://localhost:11434/v1");
                     ("OLLAMA_MODEL", "llama3.1")])).
    intros k [<-|[<-|[]]]; reflexivity.
  - apply (proj2 (setup_needs_required_variables
                    [("API_HOST", "azure");
                     ("AZURE_OPENAI_CHAT_DEPLOYMENT", "gpt-4o")])).
    reflexivity.
Defined.

(** Without [API_HOST] the setup is that of GitHub Models: it needs the
    token only, and the model defaults to [openai/gpt-4o].  A host that is
    none of [azure], [ollama] and [github] (the comparison is exact: case
    matters) selects the OpenAI.com client, which keeps the default base
    URL of the library. *)
Theorem setup_selects_host :
  forall env : environ,
    (forall token,
        get env "API_HOST" = None ->
        get env "GITHUB_TOKEN" = Some token ->
        setup env
        = Ok (Settings "github"
                (Client (Some "https://models.github.ai/inference")
                        (ApiKey token))
                (getenv env "GITHUB_MODEL" "openai/gpt-4o")))
    /\ (forall host s,
           get env "API_HOST" = Some host ->
           host <> "azure" -> host <> "ollama" -> host <> "github" ->
           setup env = Ok s ->
           API_HOST s = host
           /\ base_url (the_client s) = None
           /\ (exists key, get env "OPENAI_KEY" = Some key
                           /\ api_key (the_client s) = ApiKey key)
           /\ get env "OPENAI_MODEL" = Some (MODEL_NAME s)).
Proof.
  intros env. split.
  - intros token Hhost Htoken.
    assert (Hh : getenv env "API_HOST" "github" = "github")
      by (unfold getenv; now rewrite Hhost).
    unfold setup, environ_item. rewrite Hh, Htoken. reflexivity.
  - intros host s Hhost Ha Ho Hg.
    assert (Hh : getenv env "API_HOST" "github" = host)
      by (unfold getenv; now rewrite Hhost).
    unfold setup, environ_item. rewrite Hh.
    rewrite (proj2 (String.eqb_neq _ _) Ha), (proj2 (String.eqb_neq _ _) Ho),
      (proj2 (String.eqb_neq _ _) Hg).
    destruct (get env "OPENAI_KEY") as [key|] eqn:Hkey; [|discriminate].
    destruct (get env "OPENAI_MODEL") as [model|] eqn:Hmodel; [|discriminate].
    cbn. intros [= <-]. cbn. repeat split; eauto.
Qed.

Lemma setup_selects_host_witness :
  setup [("GITHUB_TOKEN", "ghp_token")]
  = Ok (Settings "github"
          (Client (Some "https://models.github.ai/inference")
                  (ApiKey "ghp_token"))
          "openai/gpt-4o")
  /\ base_url (the_client
                 (Settings "Azure" (Client None (ApiKey "sk-key")) "gpt-4o"))
     = None.
Proof.
  split.
  - apply (proj1 (setup_selects_host [("GITHUB_TOKEN", "ghp_token")]));
      reflexivity.
  - apply (proj2 (setup_selects_host
                    [("API_HOST", "Azure"); ("OPENAI_KEY", "sk-key");
                     ("OPENAI_MODEL", "gpt-4o")])
             "Azure" (Settings "Azure" (Client None (ApiKey "sk-key")) "gpt-4o"));
      (reflexivity || discriminate).
Defined.

(** ** [search_database] *)

Lemma truthy_str (s : string) : truthy (PStr s) = negb (String.eqb s "").
Proof. reflexivity. Qed.

Lemma truthy_dict (d : kwargs) :
  truthy (PDict d) = match d with [] => false | _ => true end.
Proof. reflexivity. Qed.

(** Called with a string and a dict or [None], [search_database] returns
    exactly when the query is not empty and the price filter is [None],
    empty, or carries one of the five operators and a number (an integer,
    a float or a boolean); keys of the filter other than
    [comparison_operator] and [value] are not looked at.  What it returns
    is always the same one product. *)
Theorem search_database_accepts :
  forall (required both invalid numeric product : string)
         (search_query : string) (price_filter : option kwargs),
    let result :=
      search_database_body required both invalid numeric product
        (PStr search_query) (price_filter_value price_filter) in
    (returns result
     <-> search_query <> ""
         /\ match price_filter with
            | None | Some [] => True
            | Some d => valid_price_filter d = true
            end)
    /\ (returns result -> result = Ok (products product)).
Proof.
  intros required both invalid numeric product q pf result.
  unfold result, search_database_body. rewrite truthy_str.
  destruct (String.eqb q "") eqn:Eq; cbn [negb].
  { apply String.eqb_eq in Eq. split.
    - split; [intros [a Ha]; discriminate | intros [Hq _]; contradiction].
    - intros [a Ha]; discriminate. }
  apply String.eqb_neq in Eq.
  destruct pf as [[|kv d]|]; cbn [price_filter_value truthy].
  1,3: split; [split; [intros _; now split| intros _; eexists; reflexivity]
              | reflexivity].
  unfold valid_price_filter, contains, getitem, mem.
  set (dd := kv :: d).
  destruct (get dd "comparison_operator") as [op|]; cbn [bind negb orb].
  2:{ split; [split; [intros [a Ha]; discriminate | intros [_ H]; discriminate]
             | intros [a Ha]; discriminate]. }
  destruct (get dd "value") as [v|]; cbn [bind negb orb].
  2:{ split; [split; [intros [a Ha]; discriminate
                     | intros [_ H]; destruct op; discriminate]
             | intros [a Ha]; discriminate]. }
  destruct op; cbn [in_set bind];
    try (split; [split; [intros [a Ha]; discriminate | intros [_ H]; discriminate]
                | intros [a Ha]; discriminate]).
  unfold comparison_operators.
  destruct (existsb (String.eqb s) [">"; "<"; ">="; "<="; "="]);
    cbn [negb andb bind].
  2:{ split; [split; [intros [a Ha]; discriminate | intros [_ H]; discriminate]
             | intros [a Ha]; discriminate]. }
  destruct (is_number v); cbn [negb bind].
  - split; [split; [intros _; now split | intros _; eexists; reflexivity]
           | reflexivity].
  - split; [split; [intros [a Ha]; discriminate | intros [_ H]; discriminate]
           | intros [a Ha]; discriminate].
Qed.

Lemma search_database_accepts_witness :
  returns (search_database_body "r" "b" "i" "n" "Example Product"
             (PStr "red shirt")
             (price_filter_value
                (Some [("comparison_operator", PStr "<"); ("value", PInt 20);
                       ("currency", PStr "USD")])))
  /\ search_database_body "r" "b" "i" "n" "Example Product"
       (PStr "red shirt") (price_filter_value None)
     = Ok (products "Example Product").
Proof.
  split.
  - apply (proj1 (search_database_accepts "r" "b" "i" "n" "Example Product"
                    "red shirt"
                    (Some [("comparison_operator", PStr "<");
                           ("value", PInt 20); ("currency", PStr "USD")]))).
    split; [discriminate | reflexivity].
  - apply (proj2 (search_database_accepts "r" "b" "i" "n" "Example Product"
                    "red shirt" None)).
    eexists. reflexivity.
Defined.

(** [search_database] checks in a fixed order and reports the first
    failure: a false query (the empty string, [None], zero ...) whatever
    the price filter; then a non-empty filter dict that lacks
    [comparison_operator] or [value]; then an operator string that is none
    of the five; then a value that is not a number. *)
Theorem search_database_reports_first_failure :
  forall (required both invalid numeric product : string),
    (forall search_query price_filter,
        truthy search_query = false ->
        search_database_body required both invalid numeric product
          search_query price_filter
        = Raise (Exn ValueError required))
    /\ (forall search_query d,
           truthy search_query = true ->
           d <> [] ->
           (mem "comparison_operator" d && mem "value" d)%bool = false ->
           search_database_body required both invalid numeric product
             search_query (PDict d)
           = Raise (Exn ValueError both))
    /\ (forall search_query d op,
           truthy search_query = true ->
           get d "comparison_operator" = Some (PStr op) ->
           mem "value" d = true ->
           existsb (String.eqb op) comparison_operators = false ->
           search_database_body required both invalid numeric product
             search_query (PDict d)
           = Raise (Exn ValueError invalid))
    /\ (forall search_query d op v,
           truthy search_query = true ->
           get d "comparison_operator" = Some (PStr op) ->
           get d "value" = Some v ->
           existsb (String.eqb op) comparison_operators = true ->
           is_number v = false ->
           search_database_body required both invalid numeric product
             search_query (PDict d)
           = Raise (Exn ValueError numeric)).
Proof.
  intros required both invalid numeric product.
  split; [|split; [|split]].
  - intros q pf Hq. unfold search_database_body. now rewrite Hq.
  - intros q d Hq Hd Hkeys. unfold search_database_body.
    rewrite Hq. cbn [negb]. rewrite truthy_dict.
    destruct d as [|kv d]; [now elim Hd|].
    unfold contains. cbn [bind].
    destruct (mem "comparison_operator" (kv :: d)); cbn [bind];
      [|reflexivity].
    cbn [andb] in Hkeys. now rewrite Hkeys.
  - intros q d op Hq Hop Hv Hunknown. unfold search_database_body.
    rewrite Hq. cbn [negb]. rewrite truthy_dict.
    destruct d as [|kv d]; [discriminate|].
    unfold contains, getitem. cbn [bind].
    assert (Hm : mem "comparison_operator" (kv :: d) = true)
      by (unfold mem; now rewrite Hop).
    rewrite Hm, Hv, Hop. cbn [bind negb orb in_set].
    unfold comparison_operators in Hunknown. now rewrite Hunknown.
  - intros q d op v Hq Hop Hv Hknown Hnum. unfold search_database_body.
    rewrite Hq. cbn [negb]. rewrite truthy_dict.
    destruct d as [|kv d]; [discriminate|].
    unfold contains, getitem. cbn [bind].
    assert (Hm : mem "comparison_operator" (kv :: d) = true)
      by (unfold mem; now rewrite Hop).
    assert (Hm' : mem "value" (kv :: d) = true)
      by (unfold mem; now rewrite Hv).
    rewrite Hm, Hm', Hop, Hv. cbn [bind negb orb in_set].
    unfold comparison_operators in Hknown. rewrite Hknown.
    cbn [negb bind]. now rewrite Hnum.
Qed.

Lemma search_database_reports_first_failure_witness :
  FewShots.search_database
    [("search_query", PStr ""); ("price_filter", PStr "not a dict")]
  = Raise (Exn ValueError "search_query is required")
  /\ FewShots.search_database
       [("search_query", PStr "tenis");
        ("price_filter", PDict [("value", PInt 50)])]
     = Raise (Exn ValueError
                  "Both comparison_operator and value are required in price_filter")
  /\ FewShots.search_database
       [("search_query", PStr "tenis");
        ("price_filter",
         PDict [("comparison_operator", PStr "!="); ("value", PInt 50)])]
     = Raise (Exn ValueError "Invalid comparison_operator in price_filter")
  /\ FewShots.search_database
       [("search_query", PStr "tenis");
        ("price_filter",
         PDict [("comparison_operator", PStr "<"); ("value", PStr "50")])]
     = Raise (Exn ValueError "Value in price_filter must be a number").
Proof.
  pose proof (search_database_reports_first_failure
                "search_query is required"
                "Both comparison_operator and value are required in price_filter"
                "Invalid comparison_operator in price_filter"
                "Value in price_filter must be a number"
                "Example Product") as [H1 [H2 [H3 H4]]].
  split; [|split; [|split]].
  - apply (H1 (PStr "") (PStr "not a dict")). reflexivity.
  - apply (H2 (PStr "tenis") [("value", PInt 50)]);
      (reflexivity || discriminate).
  - apply (H3 (PStr "tenis")
              [("comparison_operator", PStr "!="); ("value", PInt 50)] "!=");
      reflexivity.
  - apply (H4 (PStr "tenis")
              [("comparison_operator", PStr "<"); ("value", PStr "50")]
              "<" (PStr "50")); reflexivity.
Defined.

(** ** The guarded pass, request by request *)




(** ** Arguments that are JSON but not an object *)



(** ** What a run does to the conversation *)

Lemma turns_app (a b : list message) : turns a -> turns b -> turns (a ++ b).
Proof.
  intros Ha Hb. induction Ha as [|x tools rest Hx Htools Hrest IH];
    [exact Hb|].
  cbn [app]. rewrite <- app_assoc. now constructor.
Qed.

Lemma grows_refl (ms : list message) : grows ms ms.
Proof. exists []. split; [now rewrite app_nil_r | constructor]. Qed.

Lemma grows_trans (a b c : list message) : grows a b -> grows b c -> grows a c.
Proof.
  intros [x [-> Hx]] [y [-> Hy]]. exists (x ++ y)%list.
  split; [now rewrite app_assoc | now apply turns_app].
Qed.

(** An assistant message followed by answers to a part of its calls. *)
Lemma grows_turn (ms : list message) (a : message) (answered : list tool_call)
      (make : tool_call * string -> message) (texts : list string) :
  is_assistant a = true ->
  (forall tc, In tc answered -> In (tc_id tc) (ids_of a)) ->
  (forall entry, tool_call_id_of (make entry) = Some (tc_id (fst entry))) ->
  grows ms ((ms ++ [a]) ++ map make (combine answered texts)).
Proof.
  intros Ha Hin Hmake. exists (a :: map make (combine answered texts) ++ []).
  split; [now rewrite app_nil_r, <- app_assoc|].
  constructor; [exact Ha | | constructor].
  apply Forall_forall. intros m Hm. apply in_map_iff in Hm as [[tc text] [<- Hm]].
  exists (tc_id tc). split; [apply Hmake|].
  apply Hin. now apply in_combine_l in Hm.
Qed.

Lemma sequential_pass_grows (body : tool_call -> M unit) :
  (forall tc st r st',
      body tc st = (r, st') ->
      trace st' = trace st
      /\ ((exists e, r = Raise e /\ st' = st)
          \/ (exists text, r = Ok tt
                /\ messages st' = (messages st ++ [named_tool_message (tc, text)])%list))) ->
  forall st reply r st2,
    for_each body (tool_calls reply) (entered st reply) = (r, st2) ->
    grows (messages st) (messages st2).
Proof.
  intros Hbody st reply r st2 H.
  destruct (for_each_dispatch_inv _ Hbody _ _ _ _ H) as [_ [texts [-> _]]].
  unfold entered. cbn [messages].
  apply grows_turn; [reflexivity | | reflexivity].
  intros tc Hin. cbn. now apply in_map.
Qed.

Lemma single_round_trip_grows (sc : script) (ep : endpoint) (st : state) :
  grows (messages st) (messages (snd (single_round_trip sc ep st))).
Proof.
  pose proof (sequential_pass_grows _ (process_tool_call_inv sc) st) as Hpass.
  unfold single_round_trip.
  set (pass := for_each (process_tool_call sc)) in *.
  unfold bindM, create.
  destruct (ep (messages st)) as [reply|e] eqn:E; [|apply grows_refl].
  specialize (Hpass reply). unfold entered in Hpass.
  destruct (tool_calls reply) as [|tc tcs] eqn:Etcs; [apply grows_refl|].
  unfold append, emit. cbn [messages trace].
  rewrite <- app_assoc. cbn [app].
  destruct (pass (tc :: tcs) _) as [r st2] eqn:Ef.
  specialize (Hpass _ _ eq_refl).
  destruct r as [[]|e]; [|exact Hpass].
  now destruct (ep (messages st2)).
Qed.

Lemma iteration_grows (tm : list (string * tool)) (ep : endpoint) (st : state) :
  grows (messages st) (messages (snd (iteration tm ep st))).
Proof.
  destruct (ep (messages st)) as [reply|e] eqn:E.
  - destruct (tool_calls reply) as [|tc tcs] eqn:Etcs.
    + rewrite (iteration_plain _ _ _ _ E Etcs). apply grows_refl.
    + assert (Hcalls : tool_calls reply <> []) by (rewrite Etcs; discriminate).
      rewrite (iteration_tools _ _ _ _ E Hcalls).
      destruct (for_each _ _ _) as [r st1] eqn:Ef.
      pose proof (sequential_pass_grows _ (execute_tool_call_inv tm)
                    _ _ _ _ Ef) as H.
      now destruct r as [[]|e].
  - rewrite (iteration_raise _ _ _ _ E). apply grows_refl.
Qed.

Lemma while_loop_grows (tm : list (string * tool)) (ep : endpoint) (fuel : nat) :
  forall st, grows (messages st) (messages (snd (while_loop fuel tm ep st))).
Proof.
  induction fuel as [|fuel IH]; intros st; [apply grows_refl|].
  pose proof (iteration_grows tm ep st) as Hturn.
  destruct (iteration tm ep st) as [[[|]|e] st1] eqn:E; cbn [snd] in Hturn.
  - now rewrite (while_loop_break _ _ _ _ _ E).
  - rewrite (while_loop_step _ _ _ _ _ E).
    exact (grows_trans _ _ _ Hturn (IH st1)).
  - now rewrite (while_loop_raise _ _ _ _ _ _ E).
Qed.

Lemma in_filter_in {A} (p : A -> bool) (x : A) (l : list A) :
  In x (filter p l) -> In x l.
Proof. intros H. now apply filter_In in H. Qed.

Lemma parallel_grows (af : list (string * tool)) schedule (ep : endpoint)
      (st : state) r st' :
  parallel af schedule ep st = Some (r, st') ->
  grows (messages st) (messages st').
Proof.
  intros H.
  destruct (ep (messages st)) as [reply|e] eqn:Hreply.
  2:{ unfold parallel, create in H. rewrite Hreply in H.
      injection H as _ <-. apply grows_refl. }
  destruct (tool_calls reply) as [|tc tcs] eqn:Etcs.
  { unfold parallel, create in H. rewrite Hreply, Etcs in H.
    injection H as _ <-. apply grows_refl. }
  assert (Hcalls : tool_calls reply <> []) by (rewrite Etcs; discriminate).
  rewrite (parallel_unfold _ _ _ _ _ Hreply Hcalls) in H.
  destruct (dispatch_parallel _ _ _ _) as [[r2 st2]|] eqn:Hd; [|discriminate].
  assert (Hg : grows (messages st) (messages st2)).
  { unfold dispatch_parallel in Hd.
    destruct (submit_all af (tool_calls reply) [] [])
      as [[tasks futures]|e] eqn:Hsub.
    - destruct (submit_all_inv _ _ _ _ _ _ Hsub) as [new [-> Hnew]].
      cbn [app] in Hd.
      destruct (collect_inv _ _ _ _ _ Hd) as [_ [texts [-> _]]].
      rewrite Hnew. cbn [entered_parallel messages].
      apply grows_turn; [reflexivity | | reflexivity].
      intros tc' Hin. cbn. apply in_map. now apply in_filter_in in Hin.
    - injection Hd as _ <-. cbn [entered_parallel messages].
      exists ([AssistantObject reply] ++ [])%list.
      split; [now rewrite app_nil_r|].
      apply (turns_cons (AssistantObject reply) [] []);
        [reflexivity | constructor | constructor]. }
  destruct r2 as [[]|e].
  - unfold bindM, create, emit in H.
    destruct (ep (messages st2)); now injection H as _ <-.
  - now injection H as _ <-.
Qed.

(** A run never removes or rewrites a message: the conversation it leaves
    is the one it started from with turns appended, a turn being an
    assistant message followed by tool messages that carry ids of its tool
    calls.  This holds for the single round trip, for the continuous loop
    after any number of turns, and for the thread pool under any schedule,
    also when the run ends with an exception. *)
Theorem runs_append_turns :
  forall (ep : endpoint) (st : state),
    (forall sc : script,
        grows (messages st) (messages (snd (single_round_trip sc ep st))))
    /\ (forall (tm : list (string * tool)) (fuel : nat),
           grows (messages st) (messages (snd (while_loop fuel tm ep st))))
    /\ (forall (af : list (string * tool)) (schedule : list nat) r st',
           parallel af schedule ep st = Some (r, st') ->
           grows (messages st) (messages st')).
Proof.
  intros ep st. split; [|split].
  - intros sc. apply single_round_trip_grows.
  - intros tm fuel. apply while_loop_grows.
  - intros af schedule r st'. apply parallel_grows.
Qed.

Lemma runs_append_turns_witness :
  grows Parallel.messages
        (Parallel.messages
           ++ [AssistantObject (asks [weather_call; bad_json_call])]).
Proof.
  apply (proj2 (proj2 (runs_append_turns
                         (scripted [asks [weather_call; bad_json_call]])
                         (start Parallel.messages)))
           Parallel.available_functions [0]
           (Raise (decode_error
                     "Expecting property name enclosed in double quotes"))
           (State (Parallel.messages
                     ++ [AssistantObject (asks [weather_call; bad_json_call])])
                  [ModelCall Parallel.messages;
                   DispatchPass [weather_call; bad_json_call]])).
  vm_compute. reflexivity.
Defined.

Lemma answers_open_tools (a : message) (tools rest : list message) :
  Forall (fun m => exists i, tool_call_id_of m = Some i /\ In i (ids_of a))
         tools ->
  answers_open (ids_of a) (tools ++ rest) = answers_open (ids_of a) rest.
Proof.
  induction 1 as [|m tools [i [Hi Hin]] _ IH]; [reflexivity|].
  destruct m; try discriminate. injection Hi as ->.
  cbn [app answers_open]. rewrite IH.
  replace (existsb (String.eqb i) (ids_of a)) with true; [reflexivity|].
  symmetry. apply existsb_exists. exists i. split; [exact Hin|].
  apply String.eqb_refl.
Qed.

Lemma answers_open_turns (added : list message) :
  turns added -> forall open, answers_open open added = true.
Proof.
  induction 1 as [|a tools rest Ha Htools _ IH]; intros open; [reflexivity|].
  destruct a; try discriminate; cbn [answers_open];
    rewrite answers_open_tools by exact Htools; apply IH.
Qed.

Lemma answers_open_app (ms added : list message) :
  (forall open, answers_open open added = true) ->
  forall open,
    answers_open open ms = true -> answers_open open (ms ++ added) = true.
Proof.
  intros Hadded. induction ms as [|m ms IH]; intros open H; [apply Hadded|].
  destruct m; cbn [app answers_open] in *; try (now apply IH).
  apply andb_true_iff in H as [Hi H]. rewrite Hi. now apply IH.
Qed.

Lemma grows_well_formed (ms ms' : list message) :
  grows ms ms' -> well_formed ms = true -> well_formed ms' = true.
Proof.
  intros [added [-> Hadded]] H. unfold well_formed.
  apply answers_open_app; [now apply answers_open_turns | exact H].
Qed.

(** The protocol of the endpoint is an invariant of every run: when each
    tool message of the initial conversation answers a tool call of the
    assistant message before it (with only tool messages in between), so
    does each tool message of the conversation the run leaves, whether the
    run returns or raises. *)
Theorem runs_keep_conversation_well_formed :
  forall (ep : endpoint) (st : state),
    well_formed (messages st) = true ->
    (forall sc : script,
        well_formed (messages (snd (single_round_trip sc ep st))) = true)
    /\ (forall (tm : list (string * tool)) (fuel : nat),
           well_formed (messages (snd (while_loop fuel tm ep st))) = true)
    /\ (forall (af : list (string * tool)) (schedule : list nat) r st',
           parallel af schedule ep st = Some (r, st') ->
           well_formed (messages st') = true).
Proof.
  intros ep st Hwf.
  destruct (runs_append_turns ep st) as [H1 [H2 H3]].
  split; [|split].
  - intros sc. exact (grows_well_formed _ _ (H1 sc) Hwf).
  - intros tm fuel. exact (grows_well_formed _ _ (H2 tm fuel) Hwf).
  - intros af schedule r st' H. exact (grows_well_formed _ _ (H3 _ _ _ _ H) Hwf).
Qed.

Lemma runs_keep_conversation_well_formed_witness :
  well_formed FewShots.messages = true
  /\ well_formed
       (messages
          (snd (single_round_trip FewShots.script
                  (scripted [plain ""; plain "";
                             asks [ToolCall "call_abc789" "search_database"
                                     (q "{'search_query':'red shirt'}")]])
                  (start FewShots.messages)))) = true.
Proof.
  split; [reflexivity|].
  apply (proj1 (runs_keep_conversation_well_formed
                  (scripted [plain ""; plain "";
                             asks [ToolCall "call_abc789" "search_database"
                                     (q "{'search_query':'red shirt'}")]])
                  (start FewShots.messages) eq_refl)).
Defined.

(** ** The continuous loop, turn by turn *)






Lemma execute_tool_call_executes (tm : list (string * tool)) (tc : tool_call) :
  executes tm tc ->
  forall st,
    exists text,
      execute_tool_call tm tc st
      = (Ok tt,
         State (messages st ++ [named_tool_message (tc, text)]) (trace st)).
Proof.
  intros [f [kw [v [text [Hget [Hargs [Hcall Htext]]]]]]] st. exists text.
  unfold execute_tool_call, bindM, lift, append, call.
  now rewrite Hargs, Hget, Hcall, Htext.
Qed.

Lemma unguarded_pass_executes (tm : list (string * tool)) (tcs : list tool_call) :
  Forall (executes tm) tcs ->
  forall st,
    exists texts,
      length texts = length tcs
      /\ for_each (execute_tool_call tm) tcs st
         = (Ok tt,
            State (messages st ++ map named_tool_message (combine tcs texts))
                  (trace st)).
Proof.
  induction 1 as [|tc tcs Htc _ IH]; intros st.
  - exists []. cbn. rewrite app_nil_r. now destruct st.
  - destruct (execute_tool_call_executes _ _ Htc st) as [text Htext].
    destruct (IH (State (messages st ++ [named_tool_message (tc, text)])
                        (trace st))) as [texts [Hlen Hrest]].
    exists (text :: texts). split; [cbn; congruence|].
    cbn [for_each]. unfold bindM. rewrite Htext, Hrest.
    cbn [messages trace combine map]. now rewrite <- app_assoc.
Qed.



(** ** Failures of the endpoint *)



(** ** The thread pool: schedules and failures *)

Lemma submit_all_bounds (af : list (string * tool)) :
  forall tcs tasks futures tasks' futures',
    submit_all af tcs tasks futures = Ok (tasks', futures') ->
    exists new,
      futures' = (futures ++ new)%list
      /\ Forall (fun p : pending => snd p < length tasks') new
      /\ length tasks <= length tasks'.
Proof.
  induction tcs as [|tc tcs IH]; intros tasks futures tasks' futures' H.
  - injection H as <- <-. exists []. rewrite app_nil_r. auto.
  - cbn [submit_all] in H. unfold bind in H.
    destruct (json_loads (tc_arguments tc)) as [args|e]; [|discriminate].
    destruct (get af (tc_name tc)) as [f|].
    + destruct args; try discriminate.
      destruct (IH _ _ _ _ H) as [new [-> [Hnew Hlen]]].
      rewrite length_app in Hlen. cbn in Hlen.
      eexists. rewrite <- app_assoc. split; [reflexivity|].
      split; [|lia]. constructor; [cbn; lia | exact Hnew].
    + apply (IH _ _ _ _ H).
Qed.

Lemma future_result_scheduled (tasks : list task) (schedule : list nat) (i : nat) :
  i < length tasks ->
  In i schedule ->
  future_result (run_pool tasks schedule) i
  = option_map (fun t : task => fst t (snd t)) (nth_error tasks i).
Proof.
  intros Hi Hin.
  destruct (nth_error tasks i) as [[f kw]|] eqn:E.
  - now apply future_result_run_pool.
  - apply nth_error_None in E. lia.
Qed.

Lemma collect_ext (c1 c2 : list (nat * res pyval)) (futures : list pending) :
  Forall (fun p : pending => future_result c1 (snd p) = future_result c2 (snd p))
         futures ->
  forall st, collect c1 futures st = collect c2 futures st.
Proof.
  induction 1 as [|[[tc fn] fut] futures Hp _ IH]; intros st; [reflexivity|].
  cbn [collect]. cbn [snd] in Hp. rewrite Hp.
  destruct (future_result c2 fut) as [outcome|]; [|reflexivity].
  match goal with
  | |- match ?m with _ => _ end = _ => destruct m as [[[]|e] st1]
  end; [apply IH | reflexivity].
Qed.

(** The outcome of the thread-pool dispatch does not depend on the order
    in which the pool completes the calls: two schedules that both
    complete every submitted call leave the same conversation and the same
    result, an exception included: which call failed first in time plays
    no part. *)
Theorem parallel_outcome_ignores_schedule :
  forall (af : list (string * tool)) (tcs : list tool_call)
         (schedule schedule' : list nat) (st : state),
    (forall i, i < length (filter (registered af) tcs) ->
               In i schedule /\ In i schedule') ->
    dispatch_parallel af schedule tcs st = dispatch_parallel af schedule' tcs st.
Proof.
  intros af tcs s1 s2 st Hall. unfold dispatch_parallel.
  destruct (submit_all af tcs [] []) as [[tasks futures]|e] eqn:Hsub;
    [|reflexivity].
  destruct (submit_all_bounds _ _ _ _ _ _ Hsub) as [new [-> [Hnew _]]].
  destruct (submit_all_inv _ _ _ _ _ _ Hsub) as [new' [Heq Hreq]].
  cbn [app] in *. subst new'.
  assert (Hlen : length tasks = length (filter (registered af) tcs)).
  { clear Hall Hnew Hreq.
    assert (G : forall tcs tasks0 futures0 tasks1 futures1,
               submit_all af tcs tasks0 futures0 = Ok (tasks1, futures1) ->
               length tasks1
               = length tasks0 + length (filter (registered af) tcs)).
    { clear. induction tcs as [|tc tcs IH]; intros t0 f0 t1 f1 H.
      - injection H as <- <-. cbn. lia.
      - cbn [submit_all] in H. unfold bind in H.
        destruct (json_loads (tc_arguments tc)) as [args|e]; [|discriminate].
        cbn [filter]. unfold registered at 1, mem.
        destruct (get af (tc_name tc)) as [f|].
        + destruct args; try discriminate.
          rewrite (IH _ _ _ _ H), length_app. cbn. lia.
        + apply (IH _ _ _ _ H). }
    now rewrite (G _ _ _ _ _ Hsub). }
  apply collect_ext. eapply Forall_impl; [|exact Hnew].
  intros p Hp. cbn beta in Hp.
  destruct (Hall (snd p)) as [H1 H2]; [lia|].
  now rewrite !future_result_scheduled.
Qed.

Lemma parallel_outcome_ignores_schedule_witness :
  dispatch_parallel Parallel.available_functions [1; 0]
    [ToolCall "call_a" "lookup_weather" (q "{'town': 'Sydney'}");
     ToolCall "call_b" "lookup_movies" (q "{'cinema': 'Ritz'}")]
    (start Parallel.messages)
  = dispatch_parallel Parallel.available_functions [0; 1]
      [ToolCall "call_a" "lookup_weather" (q "{'town': 'Sydney'}");
       ToolCall "call_b" "lookup_movies" (q "{'cinema': 'Ritz'}")]
      (start Parallel.messages)
  /\ dispatch_parallel Parallel.available_functions [1; 0]
       [ToolCall "call_a" "lookup_weather" (q "{'town': 'Sydney'}");
        ToolCall "call_b" "lookup_movies" (q "{'cinema': 'Ritz'}")]
       (start Parallel.messages)
     = Some (Raise (unexpected "lookup_weather" "town"),
             start Parallel.messages).
Proof.
  split; [|reflexivity].
  apply (parallel_outcome_ignores_schedule Parallel.available_functions
           [ToolCall "call_a" "lookup_weather" (q "{'town': 'Sydney'}");
            ToolCall "call_b" "lookup_movies" (q "{'cinema': 'Ritz'}")]
           [1; 0] [0; 1] (start Parallel.messages)).
  intros i Hi. cbn in Hi.
  destruct i as [|[|i]]; [cbn; auto | cbn; auto | lia].
Defined.

Lemma for_each_app {A} (body : A -> M unit) (l1 l2 : list A) :
  forall st,
    for_each body (l1 ++ l2) st
    = match for_each body l1 st with
      | (Ok _, st1) => for_each body l2 st1
      | (Raise e, st1) => (Raise e, st1)
      end.
Proof.
  induction l1 as [|x l1 IH]; intros st; [reflexivity|].
  cbn [app for_each]. unfold bindM.
  destruct (body x st) as [[[]|e] st1]; [apply IH | reflexivity].
Qed.

(** Arguments that do not decode, anywhere in a turn: the thread pool
    raises from its submit loop, before any result is collected, so the
    turn gets no tool message at all, not even for the requests before
    the bad one; the continuous loop raises at the bad request and has by
    then appended the tool messages of the requests before it. *)
Theorem undecodable_request_in_a_turn :
  forall (before : list tool_call) (bad : tool_call) (after : list tool_call)
         (e : exn) (st : state),
    (forall (af : list (string * tool)) (schedule : list nat),
        Forall (fun tc => exists v,
                    json_loads (tc_arguments tc) = Ok v
                    /\ (registered af tc = true -> is_dict v = true))
               before ->
        json_loads (tc_arguments bad) = Raise e ->
        dispatch_parallel af schedule (before ++ bad :: after) st
        = Some (Raise e, st))
    /\ (forall tm : list (string * tool),
           Forall (executes tm) before ->
           json_loads (str_or (tc_arguments bad) "{}") = Raise e ->
           exists texts,
             length texts = length before
             /\ for_each (execute_tool_call tm) (before ++ bad :: after) st
                = (Raise e,
                   State (messages st
                            ++ map named_tool_message (combine before texts))
                         (trace st))).
Proof.
  intros before bad after e st. split.
  - intros af schedule Hbefore Hbad. unfold dispatch_parallel.
    assert (G : forall tasks futures,
               submit_all af (before ++ bad :: after) tasks futures = Raise e).
    { induction Hbefore as [|tc before [v [Hv Hdict]] _ IH];
        intros tasks futures; cbn [app submit_all].
      - now rewrite Hbad.
      - rewrite Hv. cbn [bind]. unfold registered, mem in Hdict.
        destruct (get af (tc_name tc)) as [f|]; [|apply IH].
        destruct v; try (discriminate (Hdict eq_refl)). apply IH. }
    now rewrite G.
  - intros tm Hbefore Hbad.
    destruct (unguarded_pass_executes _ _ Hbefore st) as [texts [Hlen Hpass]].
    exists texts. split; [exact Hlen|].
    rewrite for_each_app, Hpass. cbn [for_each]. unfold bindM.
    unfold execute_tool_call at 1, bindM, lift. now rewrite Hbad.
Qed.

Lemma undecodable_request_in_a_turn_witness :
  dispatch_parallel Parallel.available_functions [0]
    ([weather_call] ++ bad_json_call :: [movies_call])
    (start Parallel.messages)
  = Some (Raise (decode_error
                   "Expecting property name enclosed in double quotes"),
          start Parallel.messages)
  /\ exists texts,
       length texts = length [weather_call]
       /\ for_each (execute_tool_call WhileLoop.tool_mapping)
            ([weather_call] ++ bad_json_call :: [movies_call])
            (start WhileLoop.messages)
          = (Raise (decode_error
                      "Expecting property name enclosed in double quotes"),
             State (messages (start WhileLoop.messages)
                      ++ map named_tool_message (combine [weather_call] texts))
                   (trace (start WhileLoop.messages))).
Proof.
  split.
  - apply (proj1 (undecodable_request_in_a_turn [weather_call] bad_json_call
                    [movies_call]
                    (decode_error
                       "Expecting property name enclosed in double quotes")
                    (start Parallel.messages))
             Parallel.available_functions [0]).
    + constructor; [|constructor]. eexists. split; reflexivity.
    + reflexivity.
  - apply (proj2 (undecodable_request_in_a_turn [weather_call] bad_json_call
                    [movies_call]
                    (decode_error
                       "Expecting property name enclosed in double quotes")
                    (start WhileLoop.messages))
             WhileLoop.tool_mapping).
    + constructor; [|constructor].
      do 4 eexists. repeat split; vm_compute; reflexivity.
    + reflexivity.
Defined.

(** ** Values that can be encoded *)

Lemma pyval_induction (P : pyval -> Prop) :
  P PNone ->
  (forall b, P (PBool b)) ->
  (forall n, P (PInt n)) ->
  (forall r, P (PFloat r)) ->
  (forall s, P (PStr s)) ->
  (forall xs, Forall P xs -> P (PList xs)) ->
  (forall kvs, Forall (fun kv => P (snd kv)) kvs -> P (PDict kvs)) ->
  (forall t s r, P (PObject t s r)) ->
  forall v, P v.
Proof.
  intros HNone HBool HInt HFloat HStr HList HDict HObject.
  fix IH 1. intros [| b | n | r | s | xs | kvs | t s r].
  - apply HNone.
  - apply HBool.
  - apply HInt.
  - apply HFloat.
  - apply HStr.
  - apply HList. induction xs as [|x xs IHxs]; constructor; [apply IH | exact IHxs].
  - apply HDict. induction kvs as [|[k x] kvs IHkvs]; constructor;
      [apply IH | exact IHkvs].
  - apply HObject.
Qed.

(** [json.dumps] returns on every jsonable value. *)
Lemma json_dumps_jsonable (ea : bool) (v : pyval) :
  jsonable v = true -> returns (json_dumps ea v).
Proof.
  induction v as [| b | n | r | s | xs IH | kvs IH | t s r] using pyval_induction;
    intros Hp; try (eexists; reflexivity); try discriminate.
  - cbn [json_dumps].
    match goal with
    | |- returns (bind (?items xs) _) =>
        assert (Hitems : exists ss, items xs = Ok ss)
    end.
    { cbn [jsonable] in Hp. induction IH as [|x xs Hx _ IHxs]; [now eexists|].
      cbn [forallb] in Hp. apply andb_true_iff in Hp as [Hpx Hpxs].
      destruct (Hx Hpx) as [s Hs]. destruct (IHxs Hpxs) as [ss Hss].
      rewrite Hs. cbn [bind]. rewrite Hss. now eexists. }
    destruct Hitems as [ss ->]. now eexists.
  - cbn [json_dumps].
    match goal with
    | |- returns (bind (?items kvs) _) =>
        assert (Hitems : exists ss, items kvs = Ok ss)
    end.
    { cbn [jsonable] in Hp. induction IH as [|[k x] kvs Hx _ IHkvs]; [now eexists|].
      cbn [forallb snd] in Hp. apply andb_true_iff in Hp as [Hpx Hpkvs].
      destruct (Hx Hpx) as [s Hs]. destruct (IHkvs Hpkvs) as [ss Hss].
      cbn [snd] in Hs. rewrite Hs. cbn [bind]. rewrite Hss. now eexists. }
    destruct Hitems as [ss ->]. now eexists.
Qed.

Lemma scan_number_jsonable (s : string) (v : pyval) (rest : string) :
  scan_number s = Some (v, rest) -> jsonable v = true.
Proof.
  unfold scan_number.
  repeat match goal with
         | |- context [match ?x with _ => _ end] => destruct x
         | |- context [let (_, _) := ?x in _] => destruct x
         end;
    try discriminate; now intros [= <- _].
Qed.

Lemma scan_atom_jsonable (s : string) (v : pyval) (rest : string) :
  scan_atom s = Ok (v, rest) -> jsonable v = true.
Proof.
  unfold scan_atom.
  repeat match goal with
         | |- context [strip_prefix ?p s] => destruct (strip_prefix p s)
         | |- context [scan_number s] =>
             let E := fresh "E" in
             destruct (scan_number s) as [[v' r']|] eqn:E
         end;
    try discriminate; try (now intros [= <- _]).
  all: intros [= <- _]; eapply scan_number_jsonable; eassumption.
Qed.

Lemma jsonable_setitem (acc : list (string * pyval)) (k : string) (v : pyval) :
  jsonable_kwargs acc = true -> jsonable v = true -> jsonable_kwargs (setitem acc k v) = true.
Proof.
  unfold jsonable_kwargs. intros Hacc Hv.
  induction acc as [|[k' v'] acc IH]; cbn; [now rewrite Hv|].
  cbn in Hacc. apply andb_true_iff in Hacc as [Hv' Hacc].
  destruct (String.eqb k' k); cbn; [now rewrite Hv, Hacc|].
  now rewrite Hv', IH.
Qed.

Lemma scan_jsonable (fuel : nat) :
  (forall s v rest, scan_once fuel s = Ok (v, rest) -> jsonable v = true)
  /\ (forall acc s v rest,
         forallb jsonable acc = true ->
         scan_items fuel acc s = Ok (v, rest) -> jsonable v = true)
  /\ (forall acc s v rest,
         jsonable_kwargs acc = true ->
         scan_members fuel acc s = Ok (v, rest) -> jsonable v = true).
Proof.
  induction fuel as [|fuel [IHonce [IHitems IHmembers]]];
    [repeat split; intros; discriminate|].
  split; [|split].
  - intros s v rest. cbn [scan_once].
    destruct s as [|c r]; [discriminate|].
    destruct (Ascii.eqb c dquote).
    { destruct (scan_string None r) as [[str rest']|e]; [|discriminate].
      now intros [= <- _]. }
    destruct (Ascii.eqb c "{").
    { destruct (starts_with "}" (skip_ws r)); [now intros [= <- _]|].
      now apply IHmembers. }
    destruct (Ascii.eqb c "[").
    { destruct (starts_with "]" (skip_ws r)); [now intros [= <- _]|].
      now apply IHitems. }
    apply scan_atom_jsonable.
  - intros acc s v rest Hacc. cbn [scan_items].
    destruct (scan_once fuel s) as [[x rest']|e] eqn:E; [|discriminate].
    apply IHonce in E.
    assert (Hacc' : forallb jsonable (acc ++ [x]) = true)
      by (rewrite forallb_app, Hacc; cbn; now rewrite E).
    destruct (starts_with "]" (skip_ws rest')).
    { intros [= <- _]. exact Hacc'. }
    destruct (starts_with "," (skip_ws rest')); [|discriminate].
    now apply IHitems.
  - intros acc s v rest Hacc. cbn [scan_members].
    destruct (starts_with dquote s) as [r|]; [|discriminate].
    destruct (scan_string None r) as [[key rest']|e]; [|discriminate].
    destruct (starts_with ":" (skip_ws rest')) as [rest''|]; [|discriminate].
    destruct (scan_once fuel (skip_ws rest'')) as [[x rest3]|e] eqn:E;
      [|discriminate].
    apply IHonce in E.
    pose proof (jsonable_setitem acc key x Hacc E) as Hacc'.
    destruct (starts_with "}" (skip_ws rest3)).
    { intros [= <- _]. exact Hacc'. }
    destruct (starts_with "," (skip_ws rest3)); [|discriminate].
    now apply IHmembers.
Qed.

(** [json.loads] builds jsonable values. *)
Lemma json_loads_jsonable (s : string) (v : pyval) :
  json_loads s = Ok v -> jsonable v = true.
Proof.
  unfold json_loads.
  destruct (scan_once _ (skip_ws s)) as [[x rest]|e] eqn:E; [|discriminate].
  destruct (skip_ws rest); [|discriminate].
  intros [= <-]. eapply (proj1 (scan_jsonable _)). eassumption.
Qed.


Lemma keyword_jsonable (kw : kwargs) (p : string) :
  jsonable_kwargs kw = true -> jsonable (keyword kw p PNone) = true.
Proof.
  unfold keyword, jsonable_kwargs. intros H.
  induction kw as [|[k v] kw IH]; [reflexivity|].
  cbn in H |- *. apply andb_true_iff in H as [Hv Hkw].
  destruct (String.eqb k p); [exact Hv | now apply IH].
Qed.

Lemma location_of_jsonable (c z : pyval) (unknown : string) :
  jsonable c = true -> jsonable z = true -> jsonable (location_of c z unknown) = true.
Proof.
  intros Hc Hz. unfold location_of, py_or.
  destruct (truthy c) eqn:Ec; [rewrite Ec; exact Hc|].
  destruct (truthy z); [exact Hz | reflexivity].
Qed.

Lemma lookup_jsonable (fname fld unknown : string) (others : list (string * pyval)) :
  jsonable_kwargs others = true ->
  jsonable_tool (def_optional2 fname "city_name" "zip_code"
                (fun c z => Ok (PDict ((fld, location_of c z unknown) :: others)))).
Proof.
  intros Hothers kw v Hkw. unfold def_optional2.
  destruct (unexpected_keyword _ kw); [discriminate|].
  intros [= <-]. cbn [jsonable forallb snd].
  rewrite location_of_jsonable by now apply keyword_jsonable. exact Hothers.
Qed.





Lemma get_two {V} (k1 k2 name : string) (v1 v2 v : V) :
  get [(k1, v1); (k2, v2)] name = Some v ->
  (name = k1 /\ v = v1) \/ (name = k2 /\ v = v2).
Proof.
  cbn. destruct (String.eqb k1 name) eqn:E1.
  - apply String.eqb_eq in E1. intros [= <-]. now left.
  - destruct (String.eqb k2 name) eqn:E2; [|discriminate].
    apply String.eqb_eq in E2. intros [= <-]. now right.
Qed.

(** In the continuous loop, English or Spanish, the dispatch of a request
    gets through exactly when the request names [lookup_weather] or
    [lookup_movies] and its arguments (the empty text standing for [{}])
    decode to an object with no key other than [city_name] and
    [zip_code]; otherwise it raises and appends nothing.  In particular
    [json.dumps] never fails there. *)
Theorem loop_dispatch_succeeds_iff :
  forall (tm : list (string * tool)) (tc : tool_call) (st : state),
    In tm [WhileLoop.tool_mapping; Spanish.WhileLoop.tool_mapping] ->
    ((exists text,
         execute_tool_call tm tc st
         = (Ok tt,
            State (messages st ++ [named_tool_message (tc, text)]) (trace st)))
     <-> (tc_name tc = "lookup_weather" \/ tc_name tc = "lookup_movies")
         /\ exists kw,
              json_loads (str_or (tc_arguments tc) "{}") = Ok (PDict kw)
              /\ unexpected_keyword ["city_name"; "zip_code"] kw = None)
    /\ ((exists e, execute_tool_call tm tc st = (Raise e, st))
        \/ exists text,
             execute_tool_call tm tc st
             = (Ok tt,
                State (messages st ++ [named_tool_message (tc, text)])
                      (trace st))).
Proof.
  intros tm tc st Htm.
  assert (Hshape : forall name f,
             get tm name = Some f ->
             (name = "lookup_weather" \/ name = "lookup_movies")
             /\ jsonable_tool f
             /\ forall kw, returns (f kw)
                           <-> unexpected_keyword ["city_name"; "zip_code"] kw
                               = None).
  { intros name f Hget.
    assert (Hf : (name = "lookup_weather" \/ name = "lookup_movies")
                 /\ exists fname fld unknown others,
                      jsonable_kwargs others = true
                      /\ f = def_optional2 fname "city_name" "zip_code"
                               (fun c z =>
                                  Ok (PDict ((fld, location_of c z unknown)
                                               :: others)))).
    { cbn in Htm. destruct Htm as [<-|[<-|[]]];
        apply get_two in Hget as [[-> ->]|[-> ->]];
        (split; [auto|]); do 4 eexists; (split; [|reflexivity]); reflexivity. }
    destruct Hf as [Hname [fname [fld [unknown [others [Hothers ->]]]]]].
    split; [exact Hname|]. split; [now apply lookup_jsonable|].
    intros kw. unfold def_optional2.
    destruct (unexpected_keyword _ kw); split; intros H;
      try discriminate; try (now eexists); try reflexivity.
    destruct H; discriminate. }
  assert (Hiff : (exists text,
                     execute_tool_call tm tc st
                     = (Ok tt,
                        State (messages st ++ [named_tool_message (tc, text)])
                              (trace st)))
                 <-> (tc_name tc = "lookup_weather"
                      \/ tc_name tc = "lookup_movies")
                     /\ exists kw,
                          json_loads (str_or (tc_arguments tc) "{}")
                          = Ok (PDict kw)
                          /\ unexpected_keyword ["city_name"; "zip_code"] kw
                             = None).
  { split.
    - intros [text H]. unfold execute_tool_call, bindM, lift, call in H.
      destruct (json_loads _) as [args|e] eqn:Hargs; [|discriminate].
      destruct args; try discriminate.
      destruct (get tm (tc_name tc)) as [f|] eqn:Hget; [|discriminate].
      destruct (Hshape _ _ Hget) as [Hname [_ Hret]].
      split; [exact Hname|]. exists kvs. split; [reflexivity|].
      apply Hret. destruct (f kvs); [now eexists | discriminate].
    - intros [Hname [kw [Hargs Hkw]]].
      assert (Hget : exists f, get tm (tc_name tc) = Some f).
      { cbn in Htm. destruct Htm as [<-|[<-|[]]];
          destruct Hname as [-> | ->]; eexists; reflexivity. }
      destruct Hget as [f Hget].
      destruct (Hshape _ _ Hget) as [_ [Hjson Hret]].
      destruct (proj2 (Hret kw) Hkw) as [v Hv].
      assert (Hplain : jsonable v = true).
      { apply (Hjson kw v); [|exact Hv].
        apply json_loads_jsonable in Hargs. exact Hargs. }
      destruct (json_dumps_jsonable true v Hplain) as [text Htext].
      apply execute_tool_call_executes. now exists f, kw, v, text. }
  split; [exact Hiff|].
  destruct (execute_tool_call tm tc st) as [r st'] eqn:E.
  destruct (execute_tool_call_inv _ _ _ _ _ E)
    as [Ht [[e [-> ->]]|[text [-> Hm]]]].
  - left. now exists e.
  - right. exists text. destruct st'. cbn in Ht, Hm. now subst.
Qed.

Lemma loop_dispatch_succeeds_iff_witness :
  exists text,
    execute_tool_call Spanish.WhileLoop.tool_mapping
      (ToolCall "call_1" "lookup_movies" "") (start WhileLoop.messages)
    = (Ok tt,
       State (messages (start WhileLoop.messages)
                ++ [named_tool_message
                      (ToolCall "call_1" "lookup_movies" "", text)])
             (trace (start WhileLoop.messages))).
Proof.
  apply (proj2 (proj1 (loop_dispatch_succeeds_iff
                         Spanish.WhileLoop.tool_mapping
                         (ToolCall "call_1" "lookup_movies" "")
                         (start WhileLoop.messages)
                         (or_intror (or_introl eq_refl))))).
  split; [now right|]. exists []. split; reflexivity.
Defined.

(** ** The functions offered to the model and the functions registered *)

Lemma uses_declared_binds (params : list string) (kw : kwargs) :
  forallb (fun kv => existsb (String.eqb (fst kv)) params) kw = true ->
  unexpected_keyword params kw = None.
Proof.
  intros H. unfold unexpected_keyword.
  replace (filter (fun kv => negb (existsb (String.eqb (fst kv)) params)) kw)
    with (@nil (string * pyval)); [reflexivity|].
  induction kw as [|kv kw IH]; [reflexivity|].
  cbn [forallb] in H. apply andb_true_iff in H. destruct H as [Hkv Hkw].
  cbn [filter]. rewrite Hkv. cbn [negb]. now apply IH.
Qed.

Lemma search_database_body_binding
      (required both invalid numeric product : string)
      (search_query price_filter : pyval) (e : exn) :
  search_database_body required both invalid numeric product
    search_query price_filter = Raise e ->
  ~ binding_error "search_database" e.
Proof.
  intros He Hbind.
  assert (Hmsg : exists rest,
             e = Exn TypeError ("search_database() " ++ rest)).
  { destruct Hbind as [[k ->]|[p ->]]; eexists; reflexivity. }
  destruct Hmsg as [rest ->]. clear Hbind.
  unfold search_database_body in He.
  destruct (truthy search_query); cbn [negb] in He; [|discriminate].
  destruct (truthy price_filter); cbn [bind] in He; [|discriminate].
  unfold contains, getitem, in_set in He.
  destruct price_filter; cbn [bind type_name_of] in He; try discriminate;
    repeat match type of He with
           | context [if ?c then _ else _] =>
               destruct c; cbn [bind negb orb] in He; try discriminate
           | context [match get ?d ?k with _ => _ end] =>
               destruct (get d k); cbn [bind negb orb] in He;
               try discriminate
           | context [match ?v with PNone => _ | _ => _ end] =>
               destruct v; cbn [bind negb orb type_name_of] in He;
               try discriminate
           end.
Qed.

(** In each of the nine scripts the names offered to the model in [tools]
    are the names registered, in the same order, and arguments that use
    only the properties a descriptor declares, and all it requires, always
    fit the signature of the registered function: the call never fails
    with an unexpected or a missing argument. *)
Theorem offered_functions_bind :
  forall (offer : list pyval * list (string * tool)) (d : pyval) (kw : kwargs),
    In offer offers ->
    In d (fst offer) ->
    uses_declared d kw = true ->
    map descriptor_name (fst offer) = map fst (snd offer)
    /\ exists f,
         get (snd offer) (descriptor_name d) = Some f
         /\ forall e, f kw = Raise e -> ~ binding_error (descriptor_name d) e.
Proof.
  intros offer d kw Hoffer Hd Huses.
  assert (Hlookup : forall fname body,
             (forall a b, returns (body a b)) ->
             declared_properties d = ["city_name"; "zip_code"] ->
             forall e,
               def_optional2 fname "city_name" "zip_code" body kw = Raise e ->
               ~ binding_error (descriptor_name d) e).
  { intros fname body Hbody Hdecl e He _.
    unfold uses_declared in Huses. rewrite Hdecl in Huses.
    apply andb_true_iff in Huses. destruct Huses as [Hkw _].
    unfold def_optional2 in He.
    rewrite (uses_declared_binds _ _ Hkw) in He.
    destruct (Hbody (keyword kw "city_name" PNone)
                    (keyword kw "zip_code" PNone)) as [v Hv].
    rewrite Hv in He. discriminate. }
  assert (Hsearch : forall r b i n p,
             descriptor_name d = "search_database" ->
             declared_properties d = ["search_query"; "price_filter"] ->
             required_properties d = ["search_query"] ->
             forall e,
               def_required1_optional1 "search_database" "search_query"
                 "price_filter" (search_database_body r b i n p) kw
               = Raise e ->
               ~ binding_error (descriptor_name d) e).
  { intros r b i n p Hname Hdecl Hreq e He.
    unfold uses_declared in Huses. rewrite Hdecl, Hreq in Huses.
    apply andb_true_iff in Huses. destruct Huses as [Hkw Hrequired].
    cbn [forallb] in Hrequired. rewrite andb_true_r in Hrequired.
    unfold mem in Hrequired.
    unfold def_required1_optional1 in He.
    rewrite (uses_declared_binds _ _ Hkw) in He.
    destruct (get kw "search_query") as [v|]; [|discriminate].
    rewrite Hname. eapply search_database_body_binding. exact He. }
  unfold offers in Hoffer. cbn [In] in Hoffer.
  repeat (destruct Hoffer as [<-|Hoffer]); [..|contradiction];
    (split; [reflexivity|]);
    cbn [fst snd] in Hd |- *; cbn [In] in Hd;
    repeat (destruct Hd as [Hd|Hd]); try contradiction;
    eexists; (split; [rewrite <- Hd; reflexivity|]);
    first [ apply Hsearch; rewrite <- Hd; reflexivity
          | apply Hlookup; [intros a b; eexists; reflexivity
                           | rewrite <- Hd; reflexivity] ].
Qed.

Lemma offered_functions_bind_witness :
  exists f,
    get FewShots.tool_mapping "search_database" = Some f
    /\ forall e,
         f [("search_query", PStr ""); ("price_filter", PInt 5)] = Raise e ->
         ~ binding_error "search_database" e.
Proof.
  apply (proj2 (offered_functions_bind
                  (Tools.fewshots, FewShots.tool_mapping)
                  (search_descriptor
                     "Search database for relevant products based on user query"
                     "Query string to use for full text search, e.g. 'red shoes'"
                     "Filter search results based on price of the product"
                     "Operator to compare the column value, either '>', '<', '>=', '<=', '='"
                     "Value to compare against, e.g. 30")
                  [("search_query", PStr ""); ("price_filter", PInt 5)]
                  (or_intror (or_introl eq_refl))
                  (or_introl eq_refl)
                  eq_refl)).
Defined.

(** A price filter that is true and not a dict never passes
    [search_database]: the call raises, a [TypeError] from the operations
    on the filter or the [ValueError] of the missing keys. *)
Theorem search_database_rejects_non_dict_filter :
  forall (required both invalid numeric product : string)
         (search_query price_filter : pyval),
    truthy price_filter = true ->
    is_dict price_filter = false ->
    exists e,
      search_database_body required both invalid numeric product
        search_query price_filter = Raise e
      /\ (truthy search_query = false -> e = Exn ValueError required)
      /\ (truthy search_query = true ->
          e = Exn ValueError both \/ exn_cls e = TypeError).
Proof.
  intros required both invalid numeric product q pf Htrue Hdict.
  unfold search_database_body.
  destruct (truthy q); cbn [negb].
  2:{ eexists. split; [reflexivity|]. split; [reflexivity|discriminate]. }
  rewrite Htrue.
  unfold contains, getitem.
  destruct pf; try discriminate; cbn [bind type_name_of];
    repeat match goal with
           | |- context [if ?c then _ else _] =>
               destruct c; cbn [bind negb orb]
           | |- context [match ?c with Some _ => _ | None => _ end] =>
               destruct c; cbn [bind negb orb]
           end;
    eexists; (split; [reflexivity|]); (split; [discriminate|]);
    intros _; ((left; reflexivity) || (right; reflexivity)).
Qed.

Lemma search_database_rejects_non_dict_filter_witness :
  exists e,
    search_database_body "r" "b" "i" "n" "Example Product"
      (PStr "tenis") (PStr "comparison_operator < value 50") = Raise e
    /\ (truthy (PStr "tenis") = false -> e = Exn ValueError "r")
    /\ (truthy (PStr "tenis") = true ->
        e = Exn ValueError "b" \/ exn_cls e = TypeError).
Proof.
  apply (search_database_rejects_non_dict_filter "r" "b" "i" "n"
           "Example Product" (PStr "tenis")
           (PStr "comparison_operator < value 50"));
    reflexivity.
Defined.
